(** * rjutils and CastKeepingBits: a shallow embedding

    The repository holds two header-only C++ utilities:

    - [rapidjson_utils.hpp] (namespace [rjutils]): [IsValid], [IsValidArray],
      [IsValidObject], [Extract] and [ExtractFromNumericOrString], templates
      over a [DataType] that read one member of a RapidJSON object;
    - [CastKeepingBits.hpp]: a cast between two types of the same size that
      keeps the bits.

    The templates are embedded as functions over an inductive [DataType]
    (one constructor per branch of the [if constexpr] chains), integers are
    [Z] with the wrap-around of a conversion written out, [errno] is threaded
    explicitly and [assert] is a step that may stop the program. *)

From Stdlib Require Import ZArith Lia Bool List String Ascii.
From Stdlib Require Import Floats.SpecFloat.
Import ListNotations.
Local Open Scope string_scope.
Local Open Scope Z_scope.

(** ** Fixed-width integers *)

(** The value of an unsigned [bits]-wide integer holding [z] modulo 2^bits. *)
Definition wrap_unsigned (bits z : Z) : Z := z mod 2 ^ bits.

(** The value of a signed (two's complement) [bits]-wide integer holding [z]
    modulo 2^bits: what a conversion to a narrower signed type yields. *)
Definition wrap_signed (bits z : Z) : Z :=
  (z + 2 ^ (bits - 1)) mod 2 ^ bits - 2 ^ (bits - 1).

Definition fits_signed (bits z : Z) : bool :=
  (- 2 ^ (bits - 1) <=? z) && (z <? 2 ^ (bits - 1)).

Definition fits_unsigned (bits z : Z) : bool :=
  (0 <=? z) && (z <? 2 ^ bits).

(** ** C strings *)

(** The characters a [const char*] designates: those before the first NUL. *)
Fixpoint c_str (s : string) : string :=
  match s with
  | EmptyString => EmptyString
  | String c rest => if Ascii.eqb c Ascii.zero then EmptyString else String c (c_str rest)
  end.

(** ** Floating point *)

(** [double] is IEEE binary64 and [float] is binary32, both held as
    [spec_float]. *)
Definition double : Set := spec_float.
Definition float : Set := spec_float.

(** [static_cast<float>(d)]: rounding to the nearest binary32, ties to even;
    a magnitude too large for binary32 becomes an infinity. *)
Definition static_cast_float (d : double) : float :=
  match d with
  | S754_finite s m e => binary_round 24 128 s m e
  | other => other
  end.

(** [static_cast<double>(z)] for an integer [z]. *)
Definition double_of_Z (z : Z) : double := binary_normalize 53 1024 z 0 false.

(** The integer a finite binary64 denotes, when it denotes one. *)
Definition Z_of_double (d : double) : option Z :=
  match d with
  | S754_zero _ => Some 0
  | S754_finite s m e =>
      if 0 <=? e then Some (cond_Zopp s (Zpos m * 2 ^ e))
      else if Zpos m mod 2 ^ (- e) =? 0 then Some (cond_Zopp s (Zpos m / 2 ^ (- e)))
      else None
  | _ => None
  end.

(** ** RapidJSON values *)

Module rapidjson.

(** Modelled from the spec: RapidJSON's [GenericValue] (the Document Tree Node
    of the spec's data model), which is a library outside this repository.  A value
    has exactly one kind.  An integer number is held by its value; RapidJSON
    keeps, beside the 64 bits, one flag per integer type the value fits in,
    which is what [IsInt], [IsUint], [IsInt64] and [IsUint64] read.  A number
    written with a fraction or an exponent, or too large for 64 bits, is held
    as a [double].  An object is the sequence of its members in document
    order, names possibly repeated. *)
#[warnings="-register-all"]
Inductive Value : Type :=
| JNull
| JBool (b : bool)
| JInt (i : Z)
| JDouble (d : double)
| JString (s : string)
| JArray (elements : list Value)
| JObject (members : list (string * Value)).

Definition IsBool (v : Value) : bool := match v with JBool _ => true | _ => false end.
Definition IsString (v : Value) : bool := match v with JString _ => true | _ => false end.
Definition IsArray (v : Value) : bool := match v with JArray _ => true | _ => false end.
Definition IsObject (v : Value) : bool := match v with JObject _ => true | _ => false end.
Definition IsDouble (v : Value) : bool := match v with JDouble _ => true | _ => false end.
Definition IsNumber (v : Value) : bool :=
  match v with JInt _ | JDouble _ => true | _ => false end.
Definition IsInt (v : Value) : bool :=
  match v with JInt i => fits_signed 32 i | _ => false end.
Definition IsUint (v : Value) : bool :=
  match v with JInt i => fits_unsigned 32 i | _ => false end.
Definition IsInt64 (v : Value) : bool :=
  match v with JInt i => fits_signed 64 i | _ => false end.
Definition IsUint64 (v : Value) : bool :=
  match v with JInt i => fits_unsigned 64 i | _ => false end.

(** [IsLosslessDouble]: a number that a [double] holds exactly. *)
Definition IsLosslessDouble (v : Value) : bool :=
  match v with
  | JDouble _ => true
  | JInt i => match Z_of_double (double_of_Z i) with Some j => i =? j | None => false end
  | _ => false
  end.

(** The getters.  Each is called by [rjutils] only after the matching [Is]
    test (RapidJSON asserts it); elsewhere they are given a fixed result. *)
Definition GetBool (v : Value) : bool := match v with JBool b => b | _ => false end.
Definition GetInt (v : Value) : Z := match v with JInt i => i | _ => 0 end.
Definition GetUint (v : Value) : Z := match v with JInt i => i | _ => 0 end.
Definition GetInt64 (v : Value) : Z := match v with JInt i => i | _ => 0 end.
Definition GetUint64 (v : Value) : Z := match v with JInt i => i | _ => 0 end.
Definition GetDouble (v : Value) : double :=
  match v with JDouble d => d | JInt i => double_of_Z i | _ => S754_zero false end.
(** [GetString] returns a [const Ch*] to the stored characters; [rjutils]
    reads it as a C string and never asks for the stored length. *)
Definition GetString (v : Value) : string :=
  match v with JString s => c_str s | _ => "" end.

(** [StringRef], given a C string, measures the name with [strlen]. *)
Definition StringRef (name : string) : string := c_str name.

(** The members of an object.  [rjutils] requires its first argument to be an
    object (RapidJSON asserts [IsObject()] in [FindMember]); the theorems apply
    the accessors to [JObject members] only. *)
Definition Members (v : Value) : list (string * Value) :=
  match v with JObject members => members | _ => [] end.

(** [FindMember]: the first member of that name, by linear search. *)
Fixpoint FindMember (members : list (string * Value)) (name : string) : option Value :=
  match members with
  | [] => None
  | (n, v) :: rest => if String.eqb n name then Some v else FindMember rest name
  end.

(** The member a [const Ch*] names in [v], if any. *)
Definition MemberValue (v : Value) (name : string) : option Value :=
  FindMember (Members v) (StringRef name).

(** [v.HasMember(name)] *)
Definition HasMember (v : Value) (name : string) : bool :=
  match MemberValue v name with Some _ => true | None => false end.

(** [v[name]]: the member; a null value when there is none (never the case
    after [HasMember]). *)
Definition Subscript (v : Value) (name : string) : Value :=
  match MemberValue v name with Some x => x | None => JNull end.

End rapidjson.

(** ** The C library and the build *)

Module libc.

Definition EINVAL : Z := 22.
Definition ERANGE : Z := 34.

(** Modelled from the spec: the C++ implementation the header is compiled
    with, which the repository does not hold.  What ISO C and C++ leave to the
    implementation is a field:

    - [LONG_BITS]: the width of [long] and [unsigned long], 32 on Windows
      (LLP64) and on 32-bit targets, 64 on LP64 targets (Linux, macOS);
    - [NDEBUG]: whether [assert] is compiled out;
    - [noconv_EINVAL]: whether the [strtol] family sets [errno] to [EINVAL]
      when no digits are found, which POSIX allows and ISO C does not ask
      for (the BSD and macOS libraries do, glibc and the Microsoft one do
      not);
    - [strtof], [strtod]: the floating-point parsers, each giving the value
      and the error code it stores into [errno], if any. *)
Record Platform : Type := {
  LONG_BITS : Z;
  NDEBUG : bool;
  noconv_EINVAL : bool;
  strtof : string -> float * option Z;
  strtod : string -> double * option Z
}.

(** [isspace] in the C locale. *)
Definition isspace (c : ascii) : bool :=
  let n := Z.of_N (N_of_ascii c) in (n =? 32) || ((9 <=? n) && (n <=? 13)).

Definition digit_value (c : ascii) : option Z :=
  let n := Z.of_N (N_of_ascii c) in
  if (48 <=? n) && (n <=? 57) then Some (n - 48) else None.

Fixpoint skip_space (s : string) : string :=
  match s with
  | String c rest => if isspace c then skip_space rest else s
  | EmptyString => s
  end.

(** The longest run of decimal digits at the head of [s], accumulated onto
    [acc]; the flag says whether a digit was seen. *)
Fixpoint digits (s : string) (acc : Z) (any : bool) : Z * bool :=
  match s with
  | String c rest =>
      match digit_value c with
      | Some d => digits rest (10 * acc + d) true
      | None => (acc, any)
      end
  | EmptyString => (acc, any)
  end.

(** The subject sequence of a base-10 conversion: white space, an optional
    sign, digits.  Whatever follows the digits is ignored (the callers pass a
    null [endptr]). *)
Definition subject (s : string) : bool * Z * bool :=
  let s1 := skip_space s in
  let '(neg, s2) :=
    match s1 with
    | String "-" rest => (true, rest)
    | String "+" rest => (false, rest)
    | _ => (false, s1)
    end in
  let '(magnitude, any) := digits s2 0 false in
  (neg, magnitude, any).

Definition noconv (p : Platform) : Z * option Z :=
  (0, if noconv_EINVAL p then Some EINVAL else None).

(** Modelled from the spec: [strtol] and [strtoll] of the C library, in base
    10 with a null [endptr], as a conversion to a signed type of [bits] bits.
    The text is read as a base-10 literal up to the first character that is no
    digit; the result is the value and the code stored into [errno], if any.
    Out of range, the value is the nearest limit and the code is [ERANGE]
    (the overflow signal). *)
Definition strto_signed (bits : Z) (p : Platform) (s : string) : Z * option Z :=
  let '(neg, magnitude, any) := subject s in
  if negb any then noconv p
  else
    let v := if neg then - magnitude else magnitude in
    if v <? - 2 ^ (bits - 1) then (- 2 ^ (bits - 1), Some ERANGE)
    else if 2 ^ (bits - 1) <=? v then (2 ^ (bits - 1) - 1, Some ERANGE)
    else (v, None).

(** Modelled from the spec: [strtoul] and [strtoull] of the C library, in
    the same way.  A magnitude in range is negated in the unsigned type when
    the text has a minus sign, as ISO C has it. *)
Definition strto_unsigned (bits : Z) (p : Platform) (s : string) : Z * option Z :=
  let '(neg, magnitude, any) := subject s in
  if negb any then noconv p
  else if 2 ^ bits <=? magnitude then (2 ^ bits - 1, Some ERANGE)
  else (if neg then wrap_unsigned bits (- magnitude) else magnitude, None).

Definition strtol (p : Platform) (s : string) := strto_signed (LONG_BITS p) p s.
Definition strtoul (p : Platform) (s : string) := strto_unsigned (LONG_BITS p) p s.
Definition strtoll (p : Platform) (s : string) := strto_signed 64 p s.
Definition strtoull (p : Platform) (s : string) := strto_unsigned 64 p s.

End libc.

(** ** Files and the heap *)

Module stdio.

(** What [fopen] finds under a name: a file it can read, with its bytes, or
    nothing it can open, with the code the library stores into [errno] for
    that, if it stores one (POSIX asks for one, ISO C does not). *)
Inductive file_status : Type :=
| Readable (content : string)
| Unreadable (code : option Z).

(** Modelled from the spec: the part of the program's environment that
    [fopen], [fclose], [malloc] and [free] of the C library act on, which the
    repository does not hold.  [open_streams] counts the streams opened and
    not closed, [heap_blocks] the blocks allocated and not freed, [heap_free]
    the bytes [malloc] can still give; [out_of_memory_code] is what a failing
    [malloc] stores into [errno], if anything. *)
Record World : Type := {
  file_system : string -> file_status;
  open_streams : Z;
  heap_blocks : Z;
  heap_free : Z;
  out_of_memory_code : option Z;
  errno : Z
}.

Definition store_errno (code : option Z) (w : World) : World :=
  match code with
  | Some e => {| file_system := file_system w; open_streams := open_streams w;
                 heap_blocks := heap_blocks w; heap_free := heap_free w;
                 out_of_memory_code := out_of_memory_code w; errno := e |}
  | None => w
  end.

(** [fopen(name, mode)] for reading: the bytes of the file and the world
    with one more open stream, or a null pointer. *)
Definition fopen (name : string) (w : World) : option string * World :=
  match file_system w (c_str name) with
  | Readable content =>
      (Some content,
       {| file_system := file_system w; open_streams := open_streams w + 1;
          heap_blocks := heap_blocks w; heap_free := heap_free w;
          out_of_memory_code := out_of_memory_code w; errno := errno w |})
  | Unreadable code => (None, store_errno code w)
  end.

(** [fclose(fp)] *)
Definition fclose (w : World) : World :=
  {| file_system := file_system w; open_streams := open_streams w - 1;
     heap_blocks := heap_blocks w; heap_free := heap_free w;
     out_of_memory_code := out_of_memory_code w; errno := errno w |}.

(** [malloc(size)]: whether a block was given, and the world after. *)
Definition malloc (size : Z) (w : World) : bool * World :=
  if size <=? heap_free w then
    (true,
     {| file_system := file_system w; open_streams := open_streams w;
        heap_blocks := heap_blocks w + 1; heap_free := heap_free w - size;
        out_of_memory_code := out_of_memory_code w; errno := errno w |})
  else (false, store_errno (out_of_memory_code w) w).

(** [free(block)] of a block of [size] bytes. *)
Definition free (size : Z) (w : World) : World :=
  {| file_system := file_system w; open_streams := open_streams w;
     heap_blocks := heap_blocks w - 1; heap_free := heap_free w + size;
     out_of_memory_code := out_of_memory_code w; errno := errno w |}.

End stdio.

(** ** rapidjson_utils.hpp *)

Module rjutils.
Import rapidjson libc.

(** The template parameter [DataType], by the branch of the [if constexpr]
    chains it selects.  [string_family] stands for [char], [const char],
    [char*], [const char*], [std::string] and [const std::string], which share
    one branch.  [signed_integral bits] and [unsigned_integral bits] are the
    integral types of [bits] bits that are none of the four exact-width types
    nor [bool] ([short], [unsigned char], [long] where it is not [int64_t],
    ...); any other type is rejected by [static_assert] when the template is
    instantiated. *)
Inductive DataType : Set :=
| int32_t
| uint32_t
| int64_t
| uint64_t
| cpp_bool
| cpp_float
| floating_point
| string_family
| signed_integral (bits : Z)
| unsigned_integral (bits : Z).

(** The values of a [DataType]. *)
Definition value_of (T : DataType) : Set :=
  match T with
  | cpp_bool => bool
  | cpp_float => float
  | floating_point => double
  | string_family => string
  | _ => Z
  end.

(** [IsValid<DataType>(target_element, member)] *)
Definition IsValid (T : DataType) (target_element : Value) (member : string) : bool :=
  if negb (HasMember target_element member) then false
  else
    let m := Subscript target_element member in
    match T with
    | int32_t => IsInt m
    | uint32_t => IsUint m
    | int64_t => IsInt64 m
    | uint64_t => IsUint64 m
    | cpp_bool => IsBool m
    | cpp_float | floating_point => IsDouble m
    | string_family => IsString m
    | signed_integral _ => IsInt64 m
    | unsigned_integral _ => IsUint64 m
    end.

(** [IsValidArray(target_element, member)] *)
Definition IsValidArray (target_element : Value) (member : string) : bool :=
  HasMember target_element member && IsArray (Subscript target_element member).

(** [IsValidObject(target_element, member)] *)
Definition IsValidObject (target_element : Value) (member : string) : bool :=
  HasMember target_element member && IsObject (Subscript target_element member).

(** A call either returns or is stopped by a failed [assert]. *)
Inductive Outcome (A : Type) : Type :=
| Returns (a : A)
| AssertionFailed.
Arguments Returns {A} a.
Arguments AssertionFailed {A}.

(** [assert(c);] followed by [k]: nothing when [NDEBUG] is defined. *)
Definition cassert {A : Type} (p : Platform) (c : bool) (k : Outcome A) : Outcome A :=
  if NDEBUG p || c then k else AssertionFailed.

(** [Extract<DataType>(target_element, member, default_value)].  A value read
    by [GetInt64] or [GetUint64] in the last two branches is converted to
    [DataType] by the [return]: modulo 2^bits, as C++20 has it and compilers
    did before.  The string branch returns the [const Ch*] of [GetString] as
    a [const char*] or a [std::string], the spellings for which the [return]
    compiles. *)
Definition Extract (p : Platform) (T : DataType) (target_element : Value)
    (member : string) (default_value : value_of T) : Outcome (value_of T) :=
  if negb (HasMember target_element member) then Returns default_value
  else
    let m := Subscript target_element member in
    match T return value_of T -> Outcome (value_of T) with
    | int32_t => fun default_value =>
        if IsInt m then Returns (GetInt m)
        else cassert p (negb (IsNumber m)) (Returns default_value)
    | uint32_t => fun default_value =>
        if IsUint m then Returns (GetUint m) else Returns default_value
    | int64_t => fun default_value =>
        if IsInt64 m then Returns (GetInt64 m) else Returns default_value
    | uint64_t => fun default_value =>
        if IsUint64 m then Returns (GetUint64 m) else Returns default_value
    | cpp_bool => fun default_value =>
        if IsBool m then Returns (GetBool m) else Returns default_value
    | cpp_float => fun default_value =>
        if IsDouble m then Returns (static_cast_float (GetDouble m))
        else Returns default_value
    | floating_point => fun default_value =>
        if IsDouble m then Returns (GetDouble m) else Returns default_value
    | string_family => fun default_value =>
        if IsString m then Returns (GetString m) else Returns default_value
    | signed_integral bits => fun default_value =>
        if IsInt64 m then Returns (wrap_signed bits (GetInt64 m))
        else Returns default_value
    | unsigned_integral bits => fun default_value =>
        if IsUint64 m then Returns (wrap_unsigned bits (GetUint64 m))
        else Returns default_value
    end default_value.

(** The statements that follow each call of a [strto*] function, the same in
    the six branches: the call has stored its error code, if any, into
    [errno]; then [assert(errno != ERANGE); if (errno != 0) return
    default_value; return value;].  The result pairs what is returned with
    [errno] as the call leaves it. *)
Definition after_strto {A : Type} (p : Platform) (call : A * option Z)
    (default_value : A) (errno : Z) : Outcome (A * Z) :=
  let '(value, code) := call in
  let errno := match code with Some e => e | None => errno end in
  cassert p (negb (errno =? ERANGE))
    (if negb (errno =? 0) then Returns (default_value, errno)
     else Returns (value, errno)).

(** [const int32_t value = strtol(...)] and its like: the conversion of the
    parsed [long] to the declared type. *)
Definition convert {A B : Type} (f : A -> B) (call : A * option Z) : B * option Z :=
  (f (fst call), snd call).

(** The outcome of a call that neither reads nor writes [errno], run with
    [errno] as the caller left it. *)
Definition with_errno {A : Type} (errno : Z) (o : Outcome A) : Outcome (A * Z) :=
  match o with
  | Returns v => Returns (v, errno)
  | AssertionFailed => AssertionFailed
  end.

(** [ExtractFromNumericOrString<DataType>(target_element, member,
    default_value)], run with [errno] as the caller left it. *)
Definition ExtractFromNumericOrString (p : Platform) (T : DataType)
    (target_element : Value) (member : string) (default_value : value_of T)
    (errno : Z) : Outcome (value_of T * Z) :=
  if negb (HasMember target_element member) then Returns (default_value, errno)
  else
    let m := Subscript target_element member in
    if IsNumber m then
      with_errno errno (Extract p T target_element member default_value)
    else if IsString m then
      match T return value_of T -> Outcome (value_of T * Z) with
      | int32_t => fun default_value =>
          after_strto p (convert (wrap_signed 32) (strtol p (GetString m)))
            default_value errno
      | uint32_t => fun default_value =>
          after_strto p (convert (wrap_unsigned 32) (strtoul p (GetString m)))
            default_value errno
      | int64_t => fun default_value =>
          after_strto p (strtoll p (GetString m)) default_value errno
      | uint64_t => fun default_value =>
          after_strto p (strtoull p (GetString m)) default_value errno
      | cpp_float => fun default_value =>
          after_strto p (strtof p (GetString m)) default_value errno
      | floating_point => fun default_value =>
          after_strto p (strtod p (GetString m)) default_value errno
      | _ => fun default_value => Returns (default_value, errno)
      end default_value
    else Returns (default_value, errno).

(** [constexpr int BUFFER_SIZE = 65536;] *)
Definition BUFFER_SIZE : Z := 65536.

(** [ParseFile(file_name, out_document)], run in a world.  [ParseStream]
    stands for [out_document.ParseStream(is)], which acts on the world too:
    it reads the file through the stream [is] and the buffer, and allocates
    the storage of the document, which the document keeps after the call.
    Given the bytes of the file, the document as it was and the world in
    which the stream is open and the buffer allocated, it gives the document
    as the parse leaves it, whether [HasParseError()] holds, and the world as
    the parse leaves it.  The result of [ParseFile] is the [bool] returned,
    the document and the world after the call.  The file is opened for
    reading, in binary mode on Windows. *)

Definition ParseFile
    (ParseStream : string -> Value -> stdio.World -> Value * bool * stdio.World)
    (p : Platform) (file_name : string) (out_document : Value)
    (w : stdio.World) : Outcome (bool * Value * stdio.World) :=
  let '(fp, w) := stdio.fopen file_name w in
  match fp with
  | None =>
      cassert p false (Returns (false, out_document, w))
  | Some content =>
      let '(readBuffer, w) := stdio.malloc BUFFER_SIZE w in
      if negb readBuffer then Returns (false, out_document, w)
      else
        let '(document, has_parse_error, w) := ParseStream content out_document w in
        let w := stdio.fclose w in
        let w := stdio.free BUFFER_SIZE w in
        Returns (negb has_parse_error, document, w)
  end.

End rjutils.

(** ** CastKeepingBits.hpp *)

Module castkeepingbits.

(** A fixed-width integer type: its [sizeof] in bytes and its signedness. *)
Record IntegerType : Set := {
  sizeof : Z;
  is_signed : bool
}.

Definition CHAR_BIT : Z := 8.
Definition width (T : IntegerType) : Z := CHAR_BIT * sizeof T.

(** The values of the type. *)
Definition in_range (T : IntegerType) (x : Z) : bool :=
  if is_signed T then fits_signed (width T) x else fits_unsigned (width T) x.

(** The bits that hold [x] in an object of type [T], as the number they
    spell (two's complement for a negative [x]). *)
Definition object_representation (T : IntegerType) (x : Z) : Z :=
  wrap_unsigned (width T) x.

(** The value of type [T] that the bits [b] hold. *)
Definition value_representation (T : IntegerType) (b : Z) : Z :=
  if is_signed T then wrap_signed (width T) b else wrap_unsigned (width T) b.

(** [CastKeepingBits<ToType>(FromValue)]: [FromValue] is stored into the
    member [from] of the union and the member [to], which shares its bytes, is
    read.  The [static_assert] rejects types of different sizes when the
    template is instantiated: there is then no function to call. *)
Definition CastKeepingBits (ToType FromType : IntegerType) (FromValue : Z) : option Z :=
  if sizeof FromType =? sizeof ToType then
    Some (value_representation ToType (object_representation FromType FromValue))
  else None.

Definition int8_t : IntegerType := {| sizeof := 1; is_signed := true |}.
Definition uint8_t : IntegerType := {| sizeof := 1; is_signed := false |}.
Definition int16_t : IntegerType := {| sizeof := 2; is_signed := true |}.
Definition uint16_t : IntegerType := {| sizeof := 2; is_signed := false |}.
Definition int32_t : IntegerType := {| sizeof := 4; is_signed := true |}.
Definition uint32_t : IntegerType := {| sizeof := 4; is_signed := false |}.
Definition int64_t : IntegerType := {| sizeof := 8; is_signed := true |}.
Definition uint64_t : IntegerType := {| sizeof := 8; is_signed := false |}.

End castkeepingbits.

(** ** CastKeepingBits at the floating types *)

Module scalar_types.

(** The types the template is instantiated at here: the fixed-width integer
    types, and [float] and [double] in the IEEE 754 formats binary32 and
    binary64.  The [static_assert] asks nothing of the two types but one
    size. *)
Inductive ScalarType : Set :=
| integer (T : castkeepingbits.IntegerType)
| cpp_float
| cpp_double.

Definition size_of (T : ScalarType) : Z :=
  match T with
  | integer Int => castkeepingbits.sizeof Int
  | cpp_float => 4
  | cpp_double => 8
  end.

Definition width (T : ScalarType) : Z := castkeepingbits.CHAR_BIT * size_of T.

(** The float that the bits [b] of an IEEE 754 interchange format encode:
    from the most significant bit down, the sign, the biased exponent and the
    fraction; [prec] and [emax] are those of the format.  An exponent of all
    ones with a fraction that is not zero encodes a NaN. *)
Definition decode (prec emax : Z) (b : Z) : spec_float :=
  let fraction := Z.land b (Z.ones (prec - 1)) in
  let exponent := Z.land (Z.shiftr b (prec - 1)) (2 * emax - 1) in
  let sign := Z.testbit b (prec - 1 + Z.log2 (2 * emax)) in
  if exponent =? 0 then
    match fraction with
    | Zpos m => S754_finite sign m (3 - emax - prec)
    | _ => S754_zero sign
    end
  else if exponent =? 2 * emax - 1 then
    if fraction =? 0 then S754_infinity sign else S754_nan
  else
    S754_finite sign (Z.to_pos (fraction + 2 ^ (prec - 1))) (exponent - emax - prec + 2).

(** A value of a floating type is written as its encoding, the number its
    bits spell (so a NaN keeps its payload); [float_of] is the float it
    stands for.  A value of an integer type is the integer. *)
Definition float_of (T : ScalarType) (x : Z) : option spec_float :=
  match T with
  | integer _ => None
  | cpp_float => Some (decode 24 128 x)
  | cpp_double => Some (decode 53 1024 x)
  end.

(** The values of the type. *)
Definition is_value (T : ScalarType) (x : Z) : bool :=
  match T with
  | integer Int => castkeepingbits.in_range Int x
  | _ => fits_unsigned (width T) x
  end.

(** The bits that hold [x] in an object of type [T], as the number they
    spell. *)
Definition object_representation (T : ScalarType) (x : Z) : Z :=
  match T with
  | integer Int => castkeepingbits.object_representation Int x
  | _ => wrap_unsigned (width T) x
  end.

(** The value of type [T] that the bits [b] hold. *)
Definition value_representation (T : ScalarType) (b : Z) : Z :=
  match T with
  | integer Int => castkeepingbits.value_representation Int b
  | _ => wrap_unsigned (width T) b
  end.

(** [CastKeepingBits<ToType>(FromValue)] at these types; at two integer
    types it is [castkeepingbits.CastKeepingBits]. *)
Definition CastKeepingBits (ToType FromType : ScalarType) (FromValue : Z) : option Z :=
  if size_of FromType =? size_of ToType then
    Some (value_representation ToType (object_representation FromType FromValue))
  else None.

(** [a == b] at the type [T]: the comparison of the integers, or the IEEE 754
    comparison of the floats, under which a NaN equals nothing, itself
    included. *)
Definition equal (T : ScalarType) (a b : Z) : bool :=
  match float_of T a, float_of T b with
  | Some fa, Some fb => SFeqb fa fb
  | _, _ => a =? b
  end.



(** The bits of the quiet NaN of [float] with an empty payload,
    [0x7FC00000], and of the [float] 1. *)
Definition float_quiet_NaN : Z := 2143289344.
Definition float_one : Z := 1065353216.

End scalar_types.

(** ** Concrete platforms *)

Module platforms.
Import libc.

(** The digits at the head of [s] accumulated onto [acc], how many there
    were, and what follows them. *)
Fixpoint scan_digits (s : string) (acc count : Z) : Z * Z * string :=
  match s with
  | String c rest =>
      match digit_value c with
      | Some d => scan_digits rest (10 * acc + d) (count + 1)
      | None => (acc, count, s)
      end
  | EmptyString => (acc, count, s)
  end.

Definition scan_sign (s : string) : bool * string :=
  match s with
  | String "-" rest => (true, rest)
  | String "+" rest => (false, rest)
  | _ => (false, s)
  end.

(** [tolower] in the C locale. *)
Definition tolower (c : ascii) : ascii :=
  let n := N_of_ascii c in
  if ((65 <=? n) && (n <=? 90))%N then ascii_of_N (n + 32) else c.

Definition xdigit_value (c : ascii) : option Z :=
  match digit_value c with
  | Some d => Some d
  | None =>
      let n := Z.of_N (N_of_ascii (tolower c)) in
      if (97 <=? n) && (n <=? 102) then Some (n - 87) else None
  end.

(** The hexadecimal digits at the head of [s], in the same way. *)
Fixpoint scan_xdigits (s : string) (acc count : Z) : Z * Z * string :=
  match s with
  | String c rest =>
      match xdigit_value c with
      | Some d => scan_xdigits rest (16 * acc + d) (count + 1)
      | None => (acc, count, s)
      end
  | EmptyString => (acc, count, s)
  end.

(** Whether [s] starts with [word], letter case aside. *)
Fixpoint starts_with (word s : string) : bool :=
  match word, s with
  | EmptyString, _ => true
  | String a word, String c rest => Ascii.eqb a (tolower c) && starts_with word rest
  | String _ _, EmptyString => false
  end.

(** The digits of a mantissa, with an optional point among them: the digits
    as one number, how many there were, how many of them after the point,
    and what follows. *)
Definition scan_mantissa (scan : string -> Z -> Z -> Z * Z * string) (s : string)
    : Z * Z * Z * string :=
  let '(int_part, n_int, s2) := scan s 0 0 in
  let '(m, n_frac, s3) :=
    match s2 with
    | String "." rest => scan rest int_part 0
    | _ => (int_part, 0, s2)
    end in
  (m, n_int + n_frac, n_frac, s3).

(** The exponent part, [mark[+-]digits], at the head of [s] ([mark] is ["e"]
    for a decimal and ["p"] for a hexadecimal literal), 0 when there is
    none. *)
Definition scan_exponent (mark : ascii) (s : string) : Z :=
  match s with
  | String c rest =>
      if Ascii.eqb (tolower c) mark then
        let '(neg, rest) := scan_sign rest in
        let '(e, count, _) := scan_digits rest 0 0 in
        if count =? 0 then 0 else if neg then - e else e
      else 0
  | EmptyString => 0
  end.

(** [m * base^e] with the sign [neg], rounded to the nearest float of the
    format [prec], [emax], ties to even. *)
Definition round_scaled (prec emax : Z) (neg : bool) (m base e : Z) : spec_float :=
  match m with
  | Zpos mp =>
      if 0 <=? e then
        binary_round prec emax neg (mp * Z.to_pos (base ^ e))%positive 0
      else
        let '(q, e', l) := SFdiv_core_binary prec emax (Zpos mp) 0 (base ^ (- e)) 0 in
        binary_round_aux prec emax neg q e' l
  | _ => S754_zero neg
  end.

(** Whether the float [x] is [m * base^e], sign aside. *)
Definition is_exact (x : spec_float) (m base e : Z) : bool :=
  match x with
  | S754_finite _ mr er =>
      Zpos mr * 2 ^ Z.max er 0 * base ^ Z.max (- e) 0
      =? m * base ^ Z.max e 0 * 2 ^ Z.max (- er) 0
  | S754_zero _ => m =? 0
  | _ => false
  end.

(** Whether [m * base^e], not zero, is tiny for the format [prec], [emax]:
    rounded to [prec] bits with exponents as small as needed, it is below
    the least normal number, [2^(2 - emax)] (tininess is detected after
    rounding, as on x86). *)
Definition is_tiny (prec emax : Z) (m base e : Z) : bool :=
  match round_scaled prec (2 * emax) false m base e with
  | S754_finite _ mw ew => ew + Z.log2 (Zpos mw) + 1 <=? 2 - emax
  | S754_zero _ => true
  | _ => false
  end.

(** The float for [m * base^e] and the code stored into [errno]: [ERANGE]
    for an overflow, and for a result that is tiny and not exact (among them
    every underflow to zero). *)
Definition convert_scaled (prec emax : Z) (neg : bool) (m base e : Z)
    : spec_float * option Z :=
  let x := round_scaled prec emax neg m base e in
  (x, match x with
      | S754_infinity _ => Some ERANGE
      | _ =>
          if (negb (m =? 0) && is_tiny prec emax m base e
              && negb (is_exact x m base e))%bool
          then Some ERANGE else None
      end).

(** Modelled from the spec: [strtof] and [strtod] as the GNU C library has
    them, in the C locale and the default rounding mode, with a null
    [endptr]: white space, an optional sign, then [inf] or [infinity], or
    [nan] with an optional parenthesised sequence, or a hexadecimal literal
    ([0x], hexadecimal digits with an optional point, an optional binary
    exponent after [p]), or a decimal literal (digits with an optional point,
    an optional exponent after [e]), letter case aside; whatever follows is
    ignored.  The value is correctly rounded.  A text with none of these
    forms gives zero and stores nothing; [0x] without a hexadecimal digit
    after it is read as the literal [0]. *)
Definition strto_floating (prec emax : Z) (s : string) : spec_float * option Z :=
  let '(neg, s1) := scan_sign (skip_space s) in
  if starts_with "inf" s1 then (S754_infinity neg, None)
  else if starts_with "nan" s1 then (S754_nan, None)
  else
    let hexadecimal :=
      match s1 with
      | String "0" (String x rest) =>
          if Ascii.eqb (tolower x) "x" then Some rest else None
      | _ => None
      end in
    match hexadecimal with
    | Some rest =>
        let '(m, count, n_frac, s3) := scan_mantissa scan_xdigits rest in
        if count =? 0 then (S754_zero neg, None)
        else convert_scaled prec emax neg m 2 (scan_exponent "p" s3 - 4 * n_frac)
    | None =>
        let '(m, count, n_frac, s3) := scan_mantissa scan_digits s1 in
        if count =? 0 then (S754_zero false, None)
        else convert_scaled prec emax neg m 10 (scan_exponent "e" s3 - n_frac)
    end.

(** A platform with [long] of [long_bits] bits.  The floating parsers are
    the GNU ones on each. *)
Definition platform (long_bits : Z) (ndebug einval : bool) : Platform := {|
  LONG_BITS := long_bits;
  NDEBUG := ndebug;
  noconv_EINVAL := einval;
  strtof := strto_floating 24 128;
  strtod := strto_floating 53 1024
|}.

(** Linux on x86-64 with glibc: LP64, no [EINVAL] for a text without
    digits. *)
Definition linux_x86_64 (ndebug : bool) : Platform := platform 64 ndebug false.
(** Windows with the Microsoft C library: LLP64, [long] has 32 bits. *)
Definition windows_x64 (ndebug : bool) : Platform := platform 32 ndebug false.
(** macOS: LP64, and [EINVAL] from the integer parsers for a text without
    digits. *)
Definition macos (ndebug : bool) : Platform := platform 64 ndebug true.

End platforms.

(** ** The specification's words *)

Module spec.
Import rapidjson rjutils.

(** The policy table of the Presence/Type Validator: the stored kind each
    Tag requires.  The floating row is read at the level of kinds (the stored
    kind is floating-point). *)
Definition kind_policy (T : DataType) (v : Value) : Prop :=
  match T with
  | int32_t => exists i, v = JInt i /\ - 2 ^ 31 <= i < 2 ^ 31
  | uint32_t => exists i, v = JInt i /\ 0 <= i < 2 ^ 32
  | int64_t | signed_integral _ => exists i, v = JInt i /\ - 2 ^ 63 <= i < 2 ^ 63
  | uint64_t | unsigned_integral _ => exists i, v = JInt i /\ 0 <= i < 2 ^ 64
  | cpp_bool => exists b, v = JBool b
  | cpp_float | floating_point => exists d, v = JDouble d
  | string_family => exists s, v = JString s
  end.

(** "floating-point-representable numeric", read by what the words say: a
    number of whatever kind whose value a floating-point number holds. *)
Definition floating_point_representable_numeric (v : Value) : bool :=
  IsNumber v && IsLosslessDouble v.

(** A scalar: a value that is neither an array nor an object. *)
Definition scalar (v : Value) : bool := negb (IsArray v) && negb (IsObject v).

(** What the Typed Extractor reads from a stored value whose kind matches the
    Tag's policy, [None] when the kind does not match: the stored integer,
    boolean or double itself; the double rounded to [float] for the 32-bit float
    tag; the stored text as a C string; for a generic integral tag the 64-bit
    integer converted to the tag's own width. *)
Definition policy_value (T : DataType) (v : Value) : option (value_of T) :=
  match T return option (value_of T) with
  | int32_t => match v with JInt i => if fits_signed 32 i then Some i else None | _ => None end
  | uint32_t => match v with JInt i => if fits_unsigned 32 i then Some i else None | _ => None end
  | int64_t => match v with JInt i => if fits_signed 64 i then Some i else None | _ => None end
  | uint64_t => match v with JInt i => if fits_unsigned 64 i then Some i else None | _ => None end
  | cpp_bool => match v with JBool b => Some b | _ => None end
  | cpp_float => match v with JDouble d => Some (static_cast_float d) | _ => None end
  | floating_point => match v with JDouble d => Some d | _ => None end
  | string_family => match v with JString s => Some (c_str s) | _ => None end
  | signed_integral bits =>
      match v with
      | JInt i => if fits_signed 64 i then Some (wrap_signed bits i) else None
      | _ => None
      end
  | unsigned_integral bits =>
      match v with
      | JInt i => if fits_unsigned 64 i then Some (wrap_unsigned bits i) else None
      | _ => None
      end
  end.

(** The debug-only consistency check of the Typed Extractor: in a build with
    assertions, the int32 tag on a number of another subkind. *)
Definition debug_check_fails (p : libc.Platform) (T : DataType) (v : Value) : bool :=
  negb (libc.NDEBUG p) && match T with int32_t => IsNumber v | _ => false end.

(** What the Coercing Extractor parses a text into, for the six Tags it
    has a branch for: the value, converted to the Tag's width, and the error
    code the C parser reports, if any.  [None] for the other Tags. *)
Definition text_conversion (p : libc.Platform) (T : DataType) (s : string)
    : option (value_of T * option Z) :=
  match T return option (value_of T * option Z) with
  | int32_t => Some (wrap_signed 32 (fst (libc.strtol p s)), snd (libc.strtol p s))
  | uint32_t => Some (wrap_unsigned 32 (fst (libc.strtoul p s)), snd (libc.strtoul p s))
  | int64_t => Some (libc.strtoll p s)
  | uint64_t => Some (libc.strtoull p s)
  | cpp_float => Some (libc.strtof p s)
  | floating_point => Some (libc.strtod p s)
  | _ => None
  end.

(** A text from which no digits can be parsed: after white space and an
    optional sign, no decimal digit. *)
Definition no_digits (s : string) : Prop := snd (libc.subject s) = false.

End spec.

(** ** Example documents *)

Module examples.
Import rapidjson.

(** The document of the specification's end-to-end example, with three more
    members. *)
Definition example_doc : Value :=
  JObject [ ("a", JInt 5); ("b", JString "10"); ("c", JString "bad");
            ("d", JBool true); ("big", JString "99999999999999");
            ("list", JArray [JInt 1; JInt 2]);
            ("half", JDouble (S754_finite false 4503599627370496 (-53))) ].

(** One member, an integer that fits 64 bits and not 16. *)
Definition wide_doc : Value := JObject [ ("k", JInt 100000) ].

(** Numbers serialized as text, and a text that holds no number. *)
Definition text_doc : Value :=
  JObject [ ("n", JString "42"); ("big", JString "99999999999999");
            ("c", JString "abc"); ("huge", JString "99999999999999999999") ].

End examples.

(** ** Decimal texts *)

Module text.

(** The character of a decimal digit. *)
Definition digit_char (d : Z) : ascii := ascii_of_N (Z.to_N (48 + d)).

Definition is_digit (d : Z) : Prop := 0 <= d <= 9.

(** The text of a sequence of digits, most significant first, and the
    number it writes. *)
Fixpoint decimal_text (ds : list Z) : string :=
  match ds with
  | [] => EmptyString
  | d :: rest => String (digit_char d) (decimal_text rest)
  end.

Definition decimal_value (ds : list Z) : Z :=
  fold_left (fun acc d => 10 * acc + d) ds 0.

(** The sign a number is written with. *)
Inductive sign : Set := NoSign | Plus | Minus.

Definition sign_text (sg : sign) : string :=
  match sg with NoSign => "" | Plus => "+" | Minus => "-" end.

Definition signed (sg : sign) (n : Z) : Z :=
  match sg with Minus => - n | _ => n end.

Fixpoint all_space (s : string) : bool :=
  match s with
  | EmptyString => true
  | String c rest => libc.isspace c && all_space rest
  end.

Definition starts_with_digit (s : string) : bool :=
  match s with
  | String c _ => match libc.digit_value c with Some _ => true | None => false end
  | EmptyString => false
  end.

End text.

(** ** Tags by family *)

Module families.
Import rjutils.

(** The Tags the Coercing Extractor has a text branch for. *)
Definition has_text_branch (T : DataType) : bool :=
  match T with
  | int32_t | uint32_t | int64_t | uint64_t | cpp_float | floating_point => true
  | _ => false
  end.

(** The stored kind a Tag asks for. *)
Inductive family : Set := Integer | Floating | Boolean | Text.

Definition family_of (T : DataType) : family :=
  match T with
  | cpp_bool => Boolean
  | cpp_float | floating_point => Floating
  | string_family => Text
  | _ => Integer
  end.

Definition family_eqb (a b : family) : bool :=
  match a, b with
  | Integer, Integer | Floating, Floating | Boolean, Boolean | Text, Text => true
  | _, _ => false
  end.

End families.

(** ** A reader and worlds to run [ParseFile] in *)

Module loader.
Import rapidjson stdio.

(** The bytes the reader below keeps on the heap for a document it builds. *)
Definition DOCUMENT_BYTES : Z := 64.

(** A reader of documents that are one integer, in place of RapidJSON's.
    For a text that starts with an integer it allocates one block of
    [DOCUMENT_BYTES] for the document and keeps it; any other text, or a
    block it is not given, is a parse error and leaves the document as it
    was. *)
Definition integer_reader (content : string) (out_document : Value) (w : World)
    : Value * bool * World :=
  let '(neg, magnitude, any) := libc.subject content in
  if any then
    let '(storage, w) := malloc DOCUMENT_BYTES w in
    if storage then (JInt (if neg then - magnitude else magnitude), false, w)
    else (out_document, true, w)
  else (out_document, true, w).

(** The world [ParseFile] hands to the parse when it started in [w]: one
    more stream is open and the read buffer is allocated. *)
Definition parsing_world (w : World) : World := {|
  file_system := file_system w;
  open_streams := open_streams w + 1;
  heap_blocks := heap_blocks w + 1;
  heap_free := heap_free w - rjutils.BUFFER_SIZE;
  out_of_memory_code := out_of_memory_code w;
  errno := errno w
|}.

Definition ENOENT : Z := 2.
Definition ENOMEM : Z := 12.

(** One file, ["answer.json"], and the heap [heap] bytes large. *)
Definition one_file_world (heap : Z) : World := {|
  file_system := fun name =>
    if String.eqb name "answer.json" then Readable "42" else Unreadable (Some ENOENT);
  open_streams := 0;
  heap_blocks := 0;
  heap_free := heap;
  out_of_memory_code := Some ENOMEM;
  errno := 0
|}.

End loader.

(** * Properties *)

Import rapidjson libc rjutils platforms spec examples.

(** ** Ranges and wrap-around *)

Lemma fits_signed_iff (bits z : Z) :
  fits_signed bits z = true <-> - 2 ^ (bits - 1) <= z < 2 ^ (bits - 1).
Proof. unfold fits_signed. rewrite andb_true_iff, Z.leb_le, Z.ltb_lt. tauto. Qed.

Lemma fits_unsigned_iff (bits z : Z) :
  fits_unsigned bits z = true <-> 0 <= z < 2 ^ bits.
Proof. unfold fits_unsigned. rewrite andb_true_iff, Z.leb_le, Z.ltb_lt. tauto. Qed.

Lemma pow2_split (bits : Z) : 0 < bits -> 2 ^ bits = 2 * 2 ^ (bits - 1).
Proof.
  intros H. replace bits with (Z.succ (bits - 1)) at 1 by lia.
  apply Z.pow_succ_r. lia.
Qed.

Lemma pow2_pos (bits : Z) : 0 <= bits -> 0 < 2 ^ bits.
Proof. intros H. apply Z.pow_pos_nonneg; lia. Qed.

Lemma wrap_signed_fits (bits z : Z) :
  0 < bits -> fits_signed bits z = true -> wrap_signed bits z = z.
Proof.
  intros Hb Hz. apply fits_signed_iff in Hz. unfold wrap_signed.
  pose proof (pow2_split bits Hb). rewrite Z.mod_small; lia.
Qed.

Lemma wrap_unsigned_fits (bits z : Z) :
  fits_unsigned bits z = true -> wrap_unsigned bits z = z.
Proof.
  intros Hz. apply fits_unsigned_iff in Hz. unfold wrap_unsigned.
  apply Z.mod_small. lia.
Qed.

Lemma wrap_signed_range (bits z : Z) :
  0 < bits -> fits_signed bits (wrap_signed bits z) = true.
Proof.
  intros Hb. apply fits_signed_iff. unfold wrap_signed.
  pose proof (pow2_split bits Hb). pose proof (pow2_pos (bits - 1)).
  pose proof (Z.mod_pos_bound (z + 2 ^ (bits - 1)) (2 ^ bits)). lia.
Qed.

Lemma wrap_unsigned_range (bits z : Z) :
  0 <= bits -> fits_unsigned bits (wrap_unsigned bits z) = true.
Proof.
  intros Hb. apply fits_unsigned_iff. unfold wrap_unsigned.
  apply Z.mod_pos_bound. now apply pow2_pos.
Qed.

(** A signed and an unsigned reading of the same bits agree modulo 2^bits. *)
Lemma wrap_unsigned_signed (bits z : Z) :
  0 < bits -> wrap_unsigned bits (wrap_signed bits z) = wrap_unsigned bits z.
Proof.
  intros Hb. unfold wrap_unsigned, wrap_signed.
  rewrite Zminus_mod_idemp_l. f_equal. lia.
Qed.

Lemma wrap_signed_unsigned (bits z : Z) :
  0 < bits -> wrap_signed bits (wrap_unsigned bits z) = wrap_signed bits z.
Proof.
  intros Hb. unfold wrap_unsigned, wrap_signed.
  now rewrite Zplus_mod_idemp_l.
Qed.

Lemma wrap_unsigned_idem (bits z : Z) :
  wrap_unsigned bits (wrap_unsigned bits z) = wrap_unsigned bits z.
Proof. unfold wrap_unsigned. apply Z.mod_mod_divide. apply Z.divide_refl. Qed.

(** ** C strings *)

Lemma c_str_idem (s : string) : c_str (c_str s) = c_str s.
Proof.
  induction s as [|c s IH]; simpl; [reflexivity|].
  destruct (Ascii.eqb c zero) eqn:E; simpl; [reflexivity|].
  now rewrite E, IH.
Qed.

(** ** Member lookup *)

Lemma HasMember_Some (doc : Value) (member : string) (v : Value) :
  MemberValue doc member = Some v ->
  HasMember doc member = true /\ Subscript doc member = v.
Proof. unfold HasMember, Subscript. now intros ->. Qed.

Lemma HasMember_None (doc : Value) (member : string) :
  MemberValue doc member = None -> HasMember doc member = false.
Proof. unfold HasMember. now intros ->. Qed.

Lemma HasMember_true (doc : Value) (member : string) :
  HasMember doc member = true -> exists v, MemberValue doc member = Some v.
Proof.
  unfold HasMember. destruct (MemberValue doc member) as [v|]; [eauto|discriminate].
Qed.

(** [IsValid] on a present member is the [Is] test of its branch. *)
Lemma IsValid_present (T : DataType) (doc : Value) (member : string) (v : Value) :
  MemberValue doc member = Some v ->
  IsValid T doc member =
    match T with
    | int32_t => IsInt v
    | uint32_t => IsUint v
    | int64_t | signed_integral _ => IsInt64 v
    | uint64_t | unsigned_integral _ => IsUint64 v
    | cpp_bool => IsBool v
    | cpp_float | floating_point => IsDouble v
    | string_family => IsString v
    end.
Proof.
  intros H. destruct (HasMember_Some _ _ _ H) as [Hh Hs].
  unfold IsValid. rewrite Hh, Hs. now destruct T.
Qed.

Lemma IsValid_absent (T : DataType) (doc : Value) (member : string) :
  MemberValue doc member = None -> IsValid T doc member = false.
Proof. intros H. unfold IsValid. now rewrite (HasMember_None _ _ H). Qed.

(** The [Is] tests against the policy table. *)
(** A test of an integer range holds exactly on the integers within it;
    [range_iff] is [fits_signed_iff] or [fits_unsigned_iff]. *)
Ltac range_test v range_iff :=
  split;
  [ destruct v; simpl; try discriminate;
    let H := fresh in intros H; apply range_iff in H; eauto
  | let H := fresh in intros (? & -> & H); simpl; now apply range_iff ].

Lemma IsInt_iff (v : Value) :
  IsInt v = true <-> exists i, v = JInt i /\ - 2 ^ 31 <= i < 2 ^ 31.
Proof. range_test v fits_signed_iff. Qed.

Lemma IsUint_iff (v : Value) :
  IsUint v = true <-> exists i, v = JInt i /\ 0 <= i < 2 ^ 32.
Proof. range_test v fits_unsigned_iff. Qed.

Lemma IsInt64_iff (v : Value) :
  IsInt64 v = true <-> exists i, v = JInt i /\ - 2 ^ 63 <= i < 2 ^ 63.
Proof. range_test v fits_signed_iff. Qed.

Lemma IsUint64_iff (v : Value) :
  IsUint64 v = true <-> exists i, v = JInt i /\ 0 <= i < 2 ^ 64.
Proof. range_test v fits_unsigned_iff. Qed.

(** A test of the stored kind alone holds exactly on the values of that
    kind. *)
Ltac kind_test v :=
  split; [ destruct v; simpl; try discriminate; eauto
         | intros (? & ->); reflexivity ].

Lemma IsBool_iff (v : Value) : IsBool v = true <-> exists b, v = JBool b.
Proof. kind_test v. Qed.

Lemma IsDouble_iff (v : Value) : IsDouble v = true <-> exists d, v = JDouble d.
Proof. kind_test v. Qed.

Lemma IsString_iff (v : Value) : IsString v = true <-> exists s, v = JString s.
Proof. kind_test v. Qed.

Lemma IsArray_iff (v : Value) : IsArray v = true <-> exists es, v = JArray es.
Proof. kind_test v. Qed.

Lemma IsObject_iff (v : Value) : IsObject v = true <-> exists ms, v = JObject ms.
Proof. kind_test v. Qed.

(** The test [IsValid] applies to a present member decides the policy. *)
Lemma policy_decided (T : DataType) (doc : Value) (member : string) (v : Value) :
  MemberValue doc member = Some v ->
  (IsValid T doc member = true <-> kind_policy T v).
Proof.
  intros H. rewrite (IsValid_present T _ _ _ H).
  destruct T; simpl;
    first [ apply IsInt_iff | apply IsUint_iff | apply IsInt64_iff
          | apply IsUint64_iff | apply IsBool_iff | apply IsDouble_iff
          | apply IsString_iff ].
Qed.

(** ** The Presence/Type Validator *)

(** C1.  For every object, key and Tag, [IsValid] is true exactly when the
    key names a member and the stored kind of that member matches the Tag's
    row of the policy table: an integer within the signed 32-bit range for
    the int32 tag, within the unsigned 32-bit range for uint32, within the
    64-bit ranges for int64 and uint64 and for the generic signed and
    unsigned integral tags, a boolean for the boolean tag, a string for the
    string tags, a stored floating-point number for the floating tags.  It is
    false otherwise, in particular when the key is absent. *)
Theorem IsValid_iff_present_and_policy :
  forall (T : DataType) (members : list (string * Value)) (member : string),
    (IsValid T (JObject members) member = true <->
       exists v, MemberValue (JObject members) member = Some v /\ kind_policy T v)
    /\ (MemberValue (JObject members) member = None ->
       IsValid T (JObject members) member = false).
Proof.
  intros T members member. split; [split|].
  - intros H.
    destruct (MemberValue (JObject members) member) as [v|] eqn:E.
    + exists v. split; [reflexivity|]. now apply (policy_decided T _ _ _ E).
    + now rewrite (IsValid_absent T _ _ E) in H.
  - intros (v & E & Hp). now apply (policy_decided T _ _ _ E).
  - apply IsValid_absent.
Qed.

Lemma IsValid_iff_present_and_policy_example :
  (IsValid int32_t example_doc "a" = true <->
     exists v, MemberValue example_doc "a" = Some v /\ kind_policy int32_t v)
  /\ (MemberValue example_doc "a" = None -> IsValid int32_t example_doc "a" = false).
Proof. exact (IsValid_iff_present_and_policy int32_t _ "a"). Defined.

(** C9.  [IsValidArray] is true exactly when the key names a member whose
    stored kind is array, and [IsValidObject] exactly when it names a member
    whose stored kind is object; on a member that is a scalar both are false.
    Neither takes a Tag. *)
Theorem IsValidArray_IsValidObject_kind :
  forall (members : list (string * Value)) (member : string),
    (IsValidArray (JObject members) member = true <->
       exists es, MemberValue (JObject members) member = Some (JArray es))
    /\ (IsValidObject (JObject members) member = true <->
       exists ms, MemberValue (JObject members) member = Some (JObject ms))
    /\ (forall v, MemberValue (JObject members) member = Some v -> scalar v = true ->
       IsValidArray (JObject members) member = false
       /\ IsValidObject (JObject members) member = false).
Proof.
  intros members member. unfold IsValidArray, IsValidObject.
  destruct (MemberValue (JObject members) member) as [v|] eqn:E.
  - destruct (HasMember_Some _ _ _ E) as [-> ->]. cbn [andb].
    split; [|split].
    + rewrite IsArray_iff.
      split; [intros (es & ->); eauto | intros (es & [= ->]); eauto].
    + rewrite IsObject_iff.
      split; [intros (ms & ->); eauto | intros (ms & [= ->]); eauto].
    + intros w [= <-] Hs. unfold scalar in Hs.
      apply andb_true_iff in Hs as [Ha Ho]. split; now apply negb_true_iff.
  - rewrite (HasMember_None _ _ E). cbn [andb]. split; [|split].
    + split; [discriminate | intros (es & [=])].
    + split; [discriminate | intros (ms & [=])].
    + intros w [=].
Qed.

Lemma IsValidArray_IsValidObject_example :
  (IsValidArray example_doc "list" = true <->
     exists es, MemberValue example_doc "list" = Some (JArray es))
  /\ (IsValidObject example_doc "list" = true <->
     exists ms, MemberValue example_doc "list" = Some (JObject ms))
  /\ (forall v, MemberValue example_doc "list" = Some v -> scalar v = true ->
     IsValidArray example_doc "list" = false
     /\ IsValidObject example_doc "list" = false).
Proof. exact (IsValidArray_IsValidObject_kind _ "list"). Defined.

(** What the two container tests give on the example: an array, a scalar,
    an absent key. *)
Example IsValidArray_on_example :
  IsValidArray example_doc "list" = true
  /\ IsValidObject example_doc "list" = false
  /\ IsValidArray example_doc "a" = false
  /\ IsValidObject example_doc "a" = false
  /\ IsValidArray example_doc "missing" = false.
Proof. repeat apply conj; reflexivity. Qed.

(** C8, as amended.  For the 32-bit float tag and for the generic floating
    tag alike, [IsValid] is true exactly when the key names a member whose
    stored kind is floating-point, that is a number held as a double.  A
    stored integer is refused, also when a floating-point number holds its
    value. *)
Theorem IsValid_floating_iff_stored_double :
  forall (members : list (string * Value)) (member : string),
    (IsValid cpp_float (JObject members) member = true <->
       exists d, MemberValue (JObject members) member = Some (JDouble d))
    /\ (IsValid floating_point (JObject members) member = true <->
       exists d, MemberValue (JObject members) member = Some (JDouble d))
    /\ (forall i, MemberValue (JObject members) member = Some (JInt i) ->
       IsValid cpp_float (JObject members) member = false
       /\ IsValid floating_point (JObject members) member = false).
Proof.
  intros members member.
  destruct (MemberValue (JObject members) member) as [v|] eqn:E.
  - rewrite !(IsValid_present _ _ _ _ E), IsDouble_iff. split; [|split].
    + split; [intros (d & ->); eauto | intros (d & [= ->]); eauto].
    + split; [intros (d & ->); eauto | intros (d & [= ->]); eauto].
    + intros i [= ->]. split; reflexivity.
  - rewrite !(IsValid_absent _ _ _ E). split; [|split].
    + split; [discriminate | intros (d & [=])].
    + split; [discriminate | intros (d & [=])].
    + intros i [=].
Qed.

Lemma IsValid_floating_example :
  (IsValid cpp_float example_doc "half" = true <->
     exists d, MemberValue example_doc "half" = Some (JDouble d))
  /\ (IsValid floating_point example_doc "half" = true <->
     exists d, MemberValue example_doc "half" = Some (JDouble d))
  /\ (forall i, MemberValue example_doc "half" = Some (JInt i) ->
     IsValid cpp_float example_doc "half" = false
     /\ IsValid floating_point example_doc "half" = false).
Proof. exact (IsValid_floating_iff_stored_double _ "half"). Defined.

(** C8, as stated, fails: the member ["a"] of the example holds the integer
    5, a number that a floating-point number holds exactly, and [IsValid]
    refuses it for both floating tags. *)
Lemma IsValid_floating_refuses_integer :
  MemberValue example_doc "a" = Some (JInt 5)
  /\ floating_point_representable_numeric (JInt 5) = true
  /\ IsValid floating_point example_doc "a" = false
  /\ IsValid cpp_float example_doc "a" = false.
Proof. repeat apply conj; reflexivity. Qed.

(** ** The Typed Extractor *)

(** C2.  For every Tag and default, [Extract] on an object that has no
    member of the requested name returns the default. *)
Theorem Extract_absent_returns_default :
  forall (p : Platform) (T : DataType) (members : list (string * Value))
         (member : string) (default_value : value_of T),
    MemberValue (JObject members) member = None ->
    Extract p T (JObject members) member default_value = Returns default_value.
Proof.
  intros p T members member d H. unfold Extract.
  now rewrite (HasMember_None _ _ H).
Qed.

Lemma Extract_absent_example :
  Extract (linux_x86_64 false) int32_t example_doc "missing" 7 = Returns 7.
Proof.
  apply (Extract_absent_returns_default (linux_x86_64 false) int32_t). reflexivity.
Defined.

(** The policy table and what is read under it agree on which kinds match. *)
Lemma policy_value_matches (T : DataType) (v : Value) :
  kind_policy T v <-> policy_value T v <> None.
Proof.
  destruct T; simpl.
  - rewrite <- IsInt_iff. destruct v; simpl; try easy. now destruct (fits_signed 32 i).
  - rewrite <- IsUint_iff. destruct v; simpl; try easy. now destruct (fits_unsigned 32 i).
  - rewrite <- IsInt64_iff. destruct v; simpl; try easy. now destruct (fits_signed 64 i).
  - rewrite <- IsUint64_iff. destruct v; simpl; try easy. now destruct (fits_unsigned 64 i).
  - rewrite <- IsBool_iff. destruct v; simpl; easy.
  - rewrite <- IsDouble_iff. destruct v; simpl; easy.
  - rewrite <- IsDouble_iff. destruct v; simpl; easy.
  - rewrite <- IsString_iff. destruct v; simpl; easy.
  - rewrite <- IsInt64_iff. destruct v; simpl; try easy. now destruct (fits_signed 64 i).
  - rewrite <- IsUint64_iff. destruct v; simpl; try easy. now destruct (fits_unsigned 64 i).
Qed.

(** [Extract] on a present member, branch by branch. *)
Lemma Extract_present (p : Platform) (T : DataType) (doc : Value)
    (member : string) (d : value_of T) (v : Value) :
  MemberValue doc member = Some v ->
  Extract p T doc member d =
    match policy_value T v with
    | Some x => Returns x
    | None => if debug_check_fails p T v then AssertionFailed else Returns d
    end.
Proof.
  intros H. destruct (HasMember_Some _ _ _ H) as [Hh Hs].
  unfold Extract, debug_check_fails, cassert. rewrite Hh, Hs. simpl.
  destruct T; simpl; destruct v; simpl; try reflexivity;
    try (now destruct (NDEBUG p)).
  - now destruct (fits_signed 32 i), (NDEBUG p).
  - now destruct (fits_unsigned 32 i), (NDEBUG p).
  - now destruct (fits_signed 64 i), (NDEBUG p).
  - now destruct (fits_unsigned 64 i), (NDEBUG p).
  - now destruct (fits_signed 64 i), (NDEBUG p).
  - now destruct (fits_unsigned 64 i), (NDEBUG p).
Qed.

(** C3, as amended.  When the key names a member whose stored kind matches
    the Tag's policy, [Extract] returns the stored value converted to the
    Tag's type: the stored integer itself for the int32, uint32, int64 and
    uint64 tags, the stored boolean, the stored text as a C string for the
    string tags, the stored double for the generic floating tag and that
    double rounded to the nearest float for the 32-bit float tag; for a
    generic signed or unsigned integral tag, the stored 64-bit integer reduced
    to the tag's own width, which is the stored integer itself when it fits
    that width.  When the stored kind does not match, [Extract] returns the
    default, unless the debug-only check stops the program first. *)
Theorem Extract_present_returns_policy_value :
  forall (p : Platform) (members : list (string * Value)) (member : string)
         (v : Value),
    MemberValue (JObject members) member = Some v ->
    (forall (T : DataType) (default_value : value_of T),
       kind_policy T v ->
       exists x, policy_value T v = Some x
         /\ Extract p T (JObject members) member default_value = Returns x)
    /\ (forall (T : DataType) (default_value : value_of T),
         ~ kind_policy T v ->
         Extract p T (JObject members) member default_value =
           if debug_check_fails p T v then AssertionFailed else Returns default_value)
    /\ (forall (bits i : Z) (default_value : Z),
         0 < bits -> v = JInt i -> fits_signed 64 i = true ->
         fits_signed bits i = true ->
         Extract p (signed_integral bits) (JObject members) member default_value
           = Returns i)
    /\ (forall (bits i : Z) (default_value : Z),
         0 < bits -> v = JInt i -> fits_unsigned 64 i = true ->
         fits_unsigned bits i = true ->
         Extract p (unsigned_integral bits) (JObject members) member default_value
           = Returns i).
Proof.
  intros p members member v H. repeat split.
  - intros T d Hk. rewrite (Extract_present p T _ _ d v H).
    apply policy_value_matches in Hk.
    destruct (policy_value T v) as [x|]; [eauto | easy].
  - intros T d Hk. rewrite (Extract_present p T _ _ d v H).
    destruct (policy_value T v) as [x|] eqn:E; [|reflexivity].
    exfalso. apply Hk. apply policy_value_matches. now rewrite E.
  - intros bits i d Hb -> H64 Hf.
    rewrite (Extract_present p (signed_integral bits) _ _ d _ H). simpl.
    rewrite H64. now rewrite wrap_signed_fits.
  - intros bits i d Hb -> H64 Hf.
    rewrite (Extract_present p (unsigned_integral bits) _ _ d _ H). simpl.
    rewrite H64. now rewrite wrap_unsigned_fits.
Qed.

Lemma Extract_present_example :
  (forall (T : DataType) (default_value : value_of T),
     kind_policy T (JInt 5) ->
     exists x, policy_value T (JInt 5) = Some x
       /\ Extract (linux_x86_64 false) T example_doc "a" default_value = Returns x)
  /\ (forall (T : DataType) (default_value : value_of T),
       ~ kind_policy T (JInt 5) ->
       Extract (linux_x86_64 false) T example_doc "a" default_value =
         if debug_check_fails (linux_x86_64 false) T (JInt 5)
         then AssertionFailed else Returns default_value)
  /\ (forall (bits i : Z) (default_value : Z),
       0 < bits -> JInt 5 = JInt i -> fits_signed 64 i = true ->
       fits_signed bits i = true ->
       Extract (linux_x86_64 false) (signed_integral bits) example_doc "a" default_value
         = Returns i)
  /\ (forall (bits i : Z) (default_value : Z),
       0 < bits -> JInt 5 = JInt i -> fits_unsigned 64 i = true ->
       fits_unsigned bits i = true ->
       Extract (linux_x86_64 false) (unsigned_integral bits) example_doc "a" default_value
         = Returns i).
Proof.
  apply (Extract_present_returns_policy_value (linux_x86_64 false)). reflexivity.
Defined.

(** The end-to-end example of the specification, for [Extract]. *)
Example Extract_on_example :
  Extract (linux_x86_64 false) int32_t example_doc "a" 0 = Returns 5
  /\ Extract (linux_x86_64 false) cpp_bool example_doc "d" false = Returns true
  /\ Extract (linux_x86_64 false) int32_t example_doc "missing" 7 = Returns 7
  /\ Extract (linux_x86_64 false) string_family example_doc "c" "" = Returns "bad"
  /\ Extract (linux_x86_64 false) cpp_float example_doc "half" (S754_zero false)
       = Returns (S754_finite false 8388608 (-24)).
Proof. repeat apply conj; reflexivity. Qed.

(** The debug-only check: the int32 tag on a number that is no 32-bit
    integer stops a build with assertions, and returns the default without
    them. *)
Example Extract_debug_check :
  Extract (linux_x86_64 false) int32_t example_doc "half" 0 = AssertionFailed
  /\ Extract (linux_x86_64 true) int32_t example_doc "half" 0 = Returns 0.
Proof. repeat apply conj; reflexivity. Qed.

(** Narrowing a double to float loses precision: the double nearest to 0.1
    is not a float. *)
Example static_cast_float_rounds :
  static_cast_float (S754_finite false 7205759403792794 (-56))
    = S754_finite false 13421773 (-27).
Proof. reflexivity. Qed.

(** C3, as stated, fails: the member ["k"] holds 100000, an integer that
    matches the policy of the generic signed integral tag (it fits 64 bits);
    at a 16-bit signed type ([short]) that tag's [Extract] returns -31072, not
    the stored value. *)
Lemma Extract_generic_integral_not_exact :
  MemberValue wide_doc "k" = Some (JInt 100000)
  /\ kind_policy (signed_integral 16) (JInt 100000)
  /\ Extract (linux_x86_64 true) (signed_integral 16) wide_doc "k" 0 = Returns (-31072)
  /\ Extract (linux_x86_64 false) (signed_integral 16) wide_doc "k" 0 = Returns (-31072).
Proof.
  split; [reflexivity|]. split; [|split; reflexivity].
  exists 100000. split; [reflexivity | lia].
Qed.

(** ** The Numeric-or-Text Coercing Extractor *)

(** [ExtractFromNumericOrString] on a present member, by its stored kind. *)
Lemma ExtractFromNumericOrString_present (p : Platform) (T : DataType)
    (doc : Value) (member : string) (d : value_of T) (errno : Z) (v : Value) :
  MemberValue doc member = Some v ->
  ExtractFromNumericOrString p T doc member d errno =
    if IsNumber v then with_errno errno (Extract p T doc member d)
    else if IsString v then
      match text_conversion p T (GetString v) with
      | Some call => after_strto p call d errno
      | None => Returns (d, errno)
      end
    else Returns (d, errno).
Proof.
  intros H. destruct (HasMember_Some _ _ _ H) as [Hh Hs].
  unfold ExtractFromNumericOrString. rewrite Hh, Hs. simpl.
  destruct (IsNumber v); [reflexivity|].
  destruct (IsString v); [|reflexivity].
  destruct T; reflexivity.
Qed.

Lemma ExtractFromNumericOrString_absent (p : Platform) (T : DataType)
    (doc : Value) (member : string) (d : value_of T) (errno : Z) :
  MemberValue doc member = None ->
  ExtractFromNumericOrString p T doc member d errno = Returns (d, errno).
Proof.
  intros H. unfold ExtractFromNumericOrString. now rewrite (HasMember_None _ _ H).
Qed.

(** C7.  For every Tag, key and default, when the stored kind of the member
    is numeric, [ExtractFromNumericOrString] returns what [Extract] returns on
    the same arguments, [errno] left as it was; when the stored kind is
    neither numeric nor text, it returns the default. *)
Theorem ExtractFromNumericOrString_numeric_delegates :
  forall (p : Platform) (T : DataType) (members : list (string * Value))
         (member : string) (default_value : value_of T) (errno : Z) (v : Value),
    MemberValue (JObject members) member = Some v ->
    (IsNumber v = true ->
       ExtractFromNumericOrString p T (JObject members) member default_value errno
         = with_errno errno (Extract p T (JObject members) member default_value))
    /\ (IsNumber v = false -> IsString v = false ->
       ExtractFromNumericOrString p T (JObject members) member default_value errno
         = Returns (default_value, errno)).
Proof.
  intros p T members member d errno v H.
  rewrite (ExtractFromNumericOrString_present p T _ _ d errno v H).
  split.
  - now intros ->.
  - now intros -> ->.
Qed.

Lemma ExtractFromNumericOrString_numeric_example :
  (IsNumber (JInt 5) = true ->
     ExtractFromNumericOrString (linux_x86_64 false) int32_t example_doc "a" 0 0
       = with_errno 0 (Extract (linux_x86_64 false) int32_t example_doc "a" 0))
  /\ (IsNumber (JInt 5) = false -> IsString (JInt 5) = false ->
     ExtractFromNumericOrString (linux_x86_64 false) int32_t example_doc "a" 0 0
       = Returns (0, 0)).
Proof.
  apply (ExtractFromNumericOrString_numeric_delegates (linux_x86_64 false) int32_t).
  reflexivity.
Defined.

(** A member that is neither numeric nor text: the boolean ["d"]. *)
Example ExtractFromNumericOrString_on_boolean :
  ExtractFromNumericOrString (linux_x86_64 false) int32_t example_doc "d" 7 0
    = Returns (7, 0)
  /\ ExtractFromNumericOrString (linux_x86_64 false) cpp_bool example_doc "d" false 0
    = Returns (false, 0).
Proof. repeat apply conj; reflexivity. Qed.

(** *** Text without digits *)

Lemma strto_signed_no_digits (bits : Z) (p : Platform) (s : string) :
  no_digits s -> strto_signed bits p s = noconv p.
Proof.
  unfold no_digits, strto_signed. destruct (subject s) as [[neg magnitude] any].
  simpl. now intros ->.
Qed.

Lemma strto_unsigned_no_digits (bits : Z) (p : Platform) (s : string) :
  no_digits s -> strto_unsigned bits p s = noconv p.
Proof.
  unfold no_digits, strto_unsigned. destruct (subject s) as [[neg magnitude] any].
  simpl. now intros ->.
Qed.

(** What follows a parse that found no digits, entered with [errno] clear:
    the value 0 where the library reports nothing, the default where it
    stores [EINVAL]. *)
Lemma after_strto_noconv (p : Platform) (f : Z -> Z) (d : Z) :
  f 0 = 0 ->
  after_strto p (convert f (noconv p)) d 0 =
    if noconv_EINVAL p then Returns (d, EINVAL) else Returns (0, 0).
Proof.
  intros Hf. unfold after_strto, convert, noconv, cassert. simpl. rewrite Hf.
  now destruct (noconv_EINVAL p), (NDEBUG p).
Qed.

(** X6.  On a text without digits the four integer Tags behave alike: called
    with [errno] clear, 0 is returned on a platform whose parser reports nothing in
    that case, and the default only where the parser stores [EINVAL]. *)
Lemma ExtractFromNumericOrString_no_digits (p : Platform)
    (members : list (string * Value)) (member : string) (s : string) (d : Z) :
  MemberValue (JObject members) member = Some (JString s) ->
  no_digits (c_str s) ->
  let expected := if noconv_EINVAL p then Returns (d, EINVAL) else Returns (0, 0) in
  ExtractFromNumericOrString p int32_t (JObject members) member d 0 = expected
  /\ ExtractFromNumericOrString p uint32_t (JObject members) member d 0 = expected
  /\ ExtractFromNumericOrString p int64_t (JObject members) member d 0 = expected
  /\ ExtractFromNumericOrString p uint64_t (JObject members) member d 0 = expected.
Proof.
  intros H Hs expected.
  rewrite !(ExtractFromNumericOrString_present p _ _ _ _ 0 _ H). simpl.
  unfold strtol, strtoul, strtoll, strtoull.
  rewrite !(strto_signed_no_digits _ p _ Hs), !(strto_unsigned_no_digits _ p _ Hs).
  repeat split.
  - now apply (after_strto_noconv p (wrap_signed 32)).
  - now apply (after_strto_noconv p (wrap_unsigned 32)).
  - now apply (after_strto_noconv p (fun z => z)).
  - now apply (after_strto_noconv p (fun z => z)).
Qed.

Lemma ExtractFromNumericOrString_no_digits_example :
  let expected :=
    if noconv_EINVAL (linux_x86_64 false) then Returns (-1, EINVAL) else Returns (0, 0) in
  ExtractFromNumericOrString (linux_x86_64 false) int32_t text_doc "c" (-1) 0 = expected
  /\ ExtractFromNumericOrString (linux_x86_64 false) uint32_t text_doc "c" (-1) 0 = expected
  /\ ExtractFromNumericOrString (linux_x86_64 false) int64_t text_doc "c" (-1) 0 = expected
  /\ ExtractFromNumericOrString (linux_x86_64 false) uint64_t text_doc "c" (-1) 0 = expected.
Proof.
  apply (ExtractFromNumericOrString_no_digits (linux_x86_64 false) _ "c" "abc" (-1));
    reflexivity.
Defined.

(** C4, on the code.  The member ["c"] holds the text ["abc"]; called with
    the default -1 and [errno] clear on Linux or Windows,
    [ExtractFromNumericOrString] returns 0 for the int32 Tag, in either build,
    and likewise for the other integer Tags.  Only a library that stores
    [EINVAL] when it finds no digits (macOS) makes it return the default. *)
Theorem ExtractFromNumericOrString_abc_returns_zero :
  ExtractFromNumericOrString (linux_x86_64 true) int32_t text_doc "c" (-1) 0
    = Returns (0, 0)
  /\ ExtractFromNumericOrString (linux_x86_64 false) int32_t text_doc "c" (-1) 0
    = Returns (0, 0)
  /\ ExtractFromNumericOrString (windows_x64 true) int32_t text_doc "c" (-1) 0
    = Returns (0, 0)
  /\ ExtractFromNumericOrString (linux_x86_64 true) uint32_t text_doc "c" 7 0
    = Returns (0, 0)
  /\ ExtractFromNumericOrString (linux_x86_64 true) int64_t text_doc "c" (-1) 0
    = Returns (0, 0)
  /\ ExtractFromNumericOrString (linux_x86_64 true) uint64_t text_doc "c" 7 0
    = Returns (0, 0)
  /\ ExtractFromNumericOrString (macos true) int32_t text_doc "c" (-1) 0
    = Returns (-1, EINVAL).
Proof. repeat apply conj; reflexivity. Qed.

(** *** Text whose value exceeds the destination *)

(** C5, on the code.  For the int32 Tag the text ["42"] gives 42 when
    [errno] is clear at the call.  The text ["99999999999999"] exceeds the
    signed 32-bit range: where [long] has 64 bits (Linux, macOS) [strtol]
    reads it without error and the conversion to [int32_t] leaves 276447231,
    which is returned in place of the default; where [long] has 32 bits
    (Windows) the parser reports [ERANGE] and the default is returned by a
    build without assertions. *)
Theorem ExtractFromNumericOrString_int32_overflow :
  ExtractFromNumericOrString (linux_x86_64 true) int32_t text_doc "n" 0 0
    = Returns (42, 0)
  /\ ExtractFromNumericOrString (linux_x86_64 true) int32_t text_doc "big" 0 0
    = Returns (276447231, 0)
  /\ ExtractFromNumericOrString (linux_x86_64 false) int32_t text_doc "big" 0 0
    = Returns (276447231, 0)
  /\ ExtractFromNumericOrString (macos true) int32_t text_doc "big" 0 0
    = Returns (276447231, 0)
  /\ 99999999999999 mod 2 ^ 32 = 276447231
  /\ ExtractFromNumericOrString (windows_x64 true) int32_t text_doc "big" 0 0
    = Returns (0, ERANGE).
Proof. repeat apply conj; reflexivity. Qed.

(** The same slip for the uint32 Tag, and the 64-bit Tags, which are read
    by [strtoll] and [strtoull] at their own width. *)
Example ExtractFromNumericOrString_other_widths :
  ExtractFromNumericOrString (linux_x86_64 true) uint32_t text_doc "big" 0 0
    = Returns (276447231, 0)
  /\ ExtractFromNumericOrString (linux_x86_64 true) int64_t text_doc "big" 0 0
    = Returns (99999999999999, 0)
  /\ ExtractFromNumericOrString (linux_x86_64 true) int64_t text_doc "huge" 0 0
    = Returns (0, ERANGE)
  /\ ExtractFromNumericOrString (linux_x86_64 true) uint64_t text_doc "huge" 0 0
    = Returns (0, ERANGE)
  /\ ExtractFromNumericOrString (linux_x86_64 false) int64_t text_doc "huge" 0 0
    = AssertionFailed.
Proof. repeat apply conj; reflexivity. Qed.

(** *** [errno] *)

(** What follows a parse, by what the parser reported. *)
Lemma after_strto_reported {A : Type} (p : Platform) (x d : A) (e errno : Z) :
  after_strto p (x, Some e) d errno =
    if negb (NDEBUG p) && (e =? ERANGE) then AssertionFailed
    else if e =? 0 then Returns (x, e) else Returns (d, e).
Proof.
  unfold after_strto, cassert.
  now destruct (NDEBUG p), (e =? ERANGE), (e =? 0).
Qed.

Lemma after_strto_silent {A : Type} (p : Platform) (x d : A) :
  after_strto p (x, None) d 0 = Returns (x, 0).
Proof. unfold after_strto, cassert. now destruct (NDEBUG p). Qed.

(** C6, as amended.  [IsValid], [IsValidArray], [IsValidObject] and
    [Extract] take no ambient state.  [ExtractFromNumericOrString] on a
    member that is absent or not text returns the same result whatever
    [errno] holds and leaves [errno] as it found it; so it does on a text
    member for a Tag without a text branch.  On a text member, for the six
    numeric Tags, it runs the C parser on the text: when the parser reports no
    error and [errno] is 0 at the call, it returns the parsed value and [errno]
    stays 0; when the parser reports an error, whatever [errno] held, it
    leaves the parser's code in [errno] and returns the default (the debug
    assertion stops the program instead on [ERANGE] in a build with
    assertions). *)
Theorem ExtractFromNumericOrString_errno :
  forall (p : Platform) (T : DataType) (members : list (string * Value))
         (member : string) (default_value : value_of T),
    ((forall s, MemberValue (JObject members) member <> Some (JString s)) ->
       exists o : Outcome (value_of T), forall errno,
         ExtractFromNumericOrString p T (JObject members) member default_value errno
           = with_errno errno o)
    /\ (forall s, MemberValue (JObject members) member = Some (JString s) ->
        match text_conversion p T (c_str s) with
        | None => forall errno,
            ExtractFromNumericOrString p T (JObject members) member default_value errno
              = Returns (default_value, errno)
        | Some (x, None) =>
            ExtractFromNumericOrString p T (JObject members) member default_value 0
              = Returns (x, 0)
        | Some (x, Some e) => forall errno,
            ExtractFromNumericOrString p T (JObject members) member default_value errno
              = if negb (NDEBUG p) && (e =? ERANGE) then AssertionFailed
                else if e =? 0 then Returns (x, e) else Returns (default_value, e)
        end).
Proof.
  intros p T members member d. split.
  - intros Hn. destruct (MemberValue (JObject members) member) as [v|] eqn:E.
    + destruct (IsNumber v) eqn:En.
      * exists (Extract p T (JObject members) member d). intros errno.
        rewrite (ExtractFromNumericOrString_present p T _ _ d errno v E).
        now rewrite En.
      * exists (Returns d). intros errno.
        rewrite (ExtractFromNumericOrString_present p T _ _ d errno v E).
        rewrite En. destruct v; try reflexivity. now destruct (Hn s).
    + exists (Returns d). intros errno.
      now apply ExtractFromNumericOrString_absent.
  - intros s H.
    destruct (text_conversion p T (c_str s)) as [[x [e|]]|] eqn:E.
    + intros errno.
      rewrite (ExtractFromNumericOrString_present p T _ _ d errno _ H). simpl.
      rewrite E. apply after_strto_reported.
    + rewrite (ExtractFromNumericOrString_present p T _ _ d 0 _ H). simpl.
      rewrite E. apply after_strto_silent.
    + intros errno.
      rewrite (ExtractFromNumericOrString_present p T _ _ d errno _ H). simpl.
      now rewrite E.
Qed.

Lemma ExtractFromNumericOrString_errno_example :
  ((forall s, MemberValue text_doc "n" <> Some (JString s)) ->
     exists o : Outcome Z, forall errno,
       ExtractFromNumericOrString (linux_x86_64 false) int32_t text_doc "n" 0 errno
         = with_errno errno o)
  /\ (forall s, MemberValue text_doc "n" = Some (JString s) ->
      match text_conversion (linux_x86_64 false) int32_t (c_str s) with
      | None => forall errno,
          ExtractFromNumericOrString (linux_x86_64 false) int32_t text_doc "n" 0 errno
            = Returns (0, errno)
      | Some (x, None) =>
          ExtractFromNumericOrString (linux_x86_64 false) int32_t text_doc "n" 0 0
            = Returns (x, 0)
      | Some (x, Some e) => forall errno,
          ExtractFromNumericOrString (linux_x86_64 false) int32_t text_doc "n" 0 errno
            = if negb (NDEBUG (linux_x86_64 false)) && (e =? ERANGE) then AssertionFailed
              else if e =? 0 then Returns (x, e) else Returns (0, e)
      end).
Proof.
  exact (ExtractFromNumericOrString_errno (linux_x86_64 false) int32_t _ "n" 0).
Defined.

(** C6, as stated, fails.  The same document, key, Tag and default give 42
    when [errno] is 0 at the call and the default 0 when [errno] holds 2
    ([ENOENT], as a failed [fopen] leaves it), in either build; and a call
    entered with [errno] clear leaves [ERANGE] or [EINVAL] behind. *)
Lemma ExtractFromNumericOrString_reads_and_writes_errno :
  ExtractFromNumericOrString (linux_x86_64 true) int32_t text_doc "n" 0 0
    = Returns (42, 0)
  /\ ExtractFromNumericOrString (linux_x86_64 true) int32_t text_doc "n" 0 2
    = Returns (0, 2)
  /\ ExtractFromNumericOrString (linux_x86_64 false) int32_t text_doc "n" 0 0
    = Returns (42, 0)
  /\ ExtractFromNumericOrString (linux_x86_64 false) int32_t text_doc "n" 0 2
    = Returns (0, 2)
  /\ ExtractFromNumericOrString (windows_x64 true) int32_t text_doc "big" 0 0
    = Returns (0, ERANGE)
  /\ ExtractFromNumericOrString (macos false) int32_t text_doc "c" 0 0
    = Returns (0, EINVAL).
Proof. repeat apply conj; reflexivity. Qed.

(** ** CastKeepingBits *)

Module castkeepingbits_facts.
Import castkeepingbits.

Lemma width_pos (T : IntegerType) : 0 < sizeof T -> 0 < width T.
Proof. unfold width, CHAR_BIT. lia. Qed.

(** Every integer has a representation, and reading it back gives a value
    of the type. *)
Lemma value_representation_in_range (T : IntegerType) (b : Z) :
  0 < sizeof T -> in_range T (value_representation T b) = true.
Proof.
  intros H. apply width_pos in H. unfold in_range, value_representation.
  destruct (is_signed T).
  - now apply wrap_signed_range.
  - apply wrap_unsigned_range. lia.
Qed.

(** Storing a value and reading it at the same type gives it back. *)
Lemma value_of_object_representation (T : IntegerType) (x : Z) :
  0 < sizeof T -> in_range T x = true ->
  value_representation T (object_representation T x) = x.
Proof.
  intros H Hx. apply width_pos in H.
  unfold in_range, value_representation, object_representation in *.
  destruct (is_signed T).
  - rewrite wrap_signed_unsigned by assumption. now apply wrap_signed_fits.
  - rewrite wrap_unsigned_idem. now apply wrap_unsigned_fits.
Qed.

(** Reading bits as a value and storing that value gives the bits back. *)
Lemma object_of_value_representation (T : IntegerType) (b : Z) :
  0 < sizeof T ->
  object_representation T (value_representation T b) = wrap_unsigned (width T) b.
Proof.
  intros H. apply width_pos in H.
  unfold value_representation, object_representation.
  destruct (is_signed T).
  - now apply wrap_unsigned_signed.
  - apply wrap_unsigned_idem.
Qed.

End castkeepingbits_facts.

(** C10, as amended.  Between two integer types of the same size,
    [CastKeepingBits] returns a value of the destination type whose bits are
    those of its argument, and casting that value back to the source type
    gives the argument again. *)
Theorem CastKeepingBits_keeps_bits :
  forall (ToType FromType : castkeepingbits.IntegerType) (x : Z),
    0 < castkeepingbits.sizeof FromType ->
    castkeepingbits.sizeof FromType = castkeepingbits.sizeof ToType ->
    castkeepingbits.in_range FromType x = true ->
    exists y,
      castkeepingbits.CastKeepingBits ToType FromType x = Some y
      /\ castkeepingbits.in_range ToType y = true
      /\ castkeepingbits.object_representation ToType y
           = castkeepingbits.object_representation FromType x
      /\ castkeepingbits.CastKeepingBits FromType ToType y = Some x.
Proof.
  intros ToType FromType x Hpos Hsize Hx.
  unfold castkeepingbits.CastKeepingBits.
  rewrite <- Hsize, Z.eqb_refl.
  assert (Hw : castkeepingbits.width ToType = castkeepingbits.width FromType).
  { unfold castkeepingbits.width. now rewrite Hsize. }
  assert (HposT : 0 < castkeepingbits.sizeof ToType) by (rewrite <- Hsize; exact Hpos).
  eexists. split; [reflexivity|]. split; [|split].
  - now apply castkeepingbits_facts.value_representation_in_range.
  - rewrite castkeepingbits_facts.object_of_value_representation by assumption.
    unfold castkeepingbits.object_representation. rewrite Hw.
    apply wrap_unsigned_idem.
  - f_equal.
    rewrite castkeepingbits_facts.object_of_value_representation by assumption.
    rewrite Hw.
    change (wrap_unsigned (castkeepingbits.width FromType)
              (castkeepingbits.object_representation FromType x))
      with (wrap_unsigned (castkeepingbits.width FromType)
              (wrap_unsigned (castkeepingbits.width FromType) x)).
    rewrite wrap_unsigned_idem.
    now apply castkeepingbits_facts.value_of_object_representation.
Qed.

Lemma CastKeepingBits_example :
  exists y,
    castkeepingbits.CastKeepingBits castkeepingbits.uint32_t castkeepingbits.int32_t (-1)
      = Some y
    /\ castkeepingbits.in_range castkeepingbits.uint32_t y = true
    /\ castkeepingbits.object_representation castkeepingbits.uint32_t y
         = castkeepingbits.object_representation castkeepingbits.int32_t (-1)
    /\ castkeepingbits.CastKeepingBits castkeepingbits.int32_t castkeepingbits.uint32_t y
         = Some (-1).
Proof.
  apply (CastKeepingBits_keeps_bits castkeepingbits.uint32_t castkeepingbits.int32_t (-1));
    reflexivity.
Defined.

(** C10, as stated, fails.  The template takes any two types of one size,
    [uint32_t] and [float] among them.  The quiet NaN of [float] cast to
    [uint32_t] gives the number its 32 bits spell, and that number cast back
    gives the same NaN with the same bits; but the round trip does not
    compare equal to the argument, as no NaN equals itself. *)
Lemma CastKeepingBits_float_NaN_not_equal :
  scalar_types.size_of scalar_types.cpp_float
    = scalar_types.size_of (scalar_types.integer castkeepingbits.uint32_t)
  /\ scalar_types.is_value scalar_types.cpp_float scalar_types.float_quiet_NaN = true
  /\ scalar_types.float_of scalar_types.cpp_float scalar_types.float_quiet_NaN
       = Some S754_nan
  /\ scalar_types.CastKeepingBits (scalar_types.integer castkeepingbits.uint32_t)
       scalar_types.cpp_float scalar_types.float_quiet_NaN
     = Some 2143289344
  /\ scalar_types.CastKeepingBits scalar_types.cpp_float
       (scalar_types.integer castkeepingbits.uint32_t) 2143289344
     = Some scalar_types.float_quiet_NaN
  /\ scalar_types.equal scalar_types.cpp_float
       scalar_types.float_quiet_NaN scalar_types.float_quiet_NaN = false.
Proof. repeat apply conj; reflexivity. Qed.

(** The seed example of the header: a negative [int32_t] read as
    [uint32_t] keeps all 32 bits, and types of different sizes are refused. *)
Example CastKeepingBits_values :
  castkeepingbits.CastKeepingBits castkeepingbits.uint32_t castkeepingbits.int32_t (-1)
    = Some 4294967295
  /\ castkeepingbits.CastKeepingBits castkeepingbits.int32_t castkeepingbits.uint32_t
       4294967295 = Some (-1)
  /\ castkeepingbits.CastKeepingBits castkeepingbits.int64_t castkeepingbits.uint64_t
       (2 ^ 63) = Some (- 2 ^ 63)
  /\ castkeepingbits.CastKeepingBits castkeepingbits.uint64_t castkeepingbits.int32_t 5
       = None.
Proof. repeat apply conj; reflexivity. Qed.

(** ** Further properties of the accessors *)

Lemma Extract_returns (p : Platform) (T : DataType) (doc : Value)
    (member : string) (d : value_of T) :
  NDEBUG p = true -> exists x, Extract p T doc member d = Returns x.
Proof.
  intros Hn. destruct (MemberValue doc member) as [v|] eqn:E.
  - rewrite (Extract_present p T _ _ d v E).
    unfold debug_check_fails. rewrite Hn. simpl.
    destruct (policy_value T v); eauto.
  - unfold Extract. rewrite (HasMember_None _ _ E). simpl. eauto.
Qed.

(** Without assertions [Extract] always returns: the debug-only check
    is the only way a call can stop. *)
Theorem Extract_returns_without_assertions :
  forall (p : Platform) (T : DataType) (doc : Value) (member : string)
         (default_value : value_of T),
    NDEBUG p = true ->
    exists x, Extract p T doc member default_value = Returns x.
Proof. intros p T doc member d Hn. now apply Extract_returns. Qed.

Lemma Extract_returns_example :
  exists x, Extract (linux_x86_64 true) int32_t example_doc "half" 0 = Returns x.
Proof.
  apply (Extract_returns_without_assertions (linux_x86_64 true) int32_t). reflexivity.
Defined.

(** X1.  The Typed Extractor answers the Validator's question: where
    [IsValid] is true, [Extract] returns what is read from the member, whatever the
    default and the build. *)
Theorem IsValid_true_Extract_reads :
  forall (T : DataType) (members : list (string * Value)) (member : string),
    IsValid T (JObject members) member = true ->
    exists v x,
      MemberValue (JObject members) member = Some v
      /\ policy_value T v = Some x
      /\ forall (p : Platform) (default_value : value_of T),
           Extract p T (JObject members) member default_value = Returns x.
Proof.
  intros T members member H.
  destruct (MemberValue (JObject members) member) as [v|] eqn:E.
  - apply (policy_decided T _ _ _ E) in H. apply policy_value_matches in H.
    destruct (policy_value T v) as [x|] eqn:Ex; [|easy].
    exists v, x. split; [reflexivity|]. split; [exact Ex|]. intros p d.
    rewrite (Extract_present p T _ _ d v E). now rewrite Ex.
  - now rewrite (IsValid_absent T _ _ E) in H.
Qed.

Lemma IsValid_true_Extract_reads_example :
  exists v x,
    MemberValue example_doc "d" = Some v
    /\ policy_value cpp_bool v = Some x
    /\ forall (p : Platform) (default_value : bool),
         Extract p cpp_bool example_doc "d" default_value = Returns x.
Proof. apply (IsValid_true_Extract_reads cpp_bool). reflexivity. Defined.

(** Where a name is repeated in an object, the accessors see the first
    member of that name. *)
Theorem MemberValue_first_of_name :
  forall (members : list (string * Value)) (member : string) (v : Value),
    MemberValue (JObject ((c_str member, v) :: members)) member = Some v.
Proof.
  intros members member v. unfold MemberValue, StringRef. simpl.
  now rewrite String.eqb_refl.
Qed.

(** *** The integer parsers *)

(** The parser's result is within its type, whatever the text. *)
Lemma strto_signed_in_range (bits : Z) (p : Platform) (s : string) :
  0 < bits -> fits_signed bits (fst (strto_signed bits p s)) = true.
Proof.
  intros Hb. pose proof (pow2_pos (bits - 1)) as Hp.
  unfold strto_signed. destruct (subject s) as [[neg magnitude] any].
  destruct any; simpl.
  - destruct (Z.ltb_spec (if neg then - magnitude else magnitude) (- 2 ^ (bits - 1)));
      [apply fits_signed_iff; simpl; lia|].
    destruct (Z.leb_spec (2 ^ (bits - 1)) (if neg then - magnitude else magnitude));
      apply fits_signed_iff; simpl; lia.
  - apply fits_signed_iff. lia.
Qed.

(** A text with digits, read by the signed parser: its value when it fits,
    [ERANGE] otherwise. *)
Lemma strto_signed_digits (bits : Z) (p : Platform) (s : string)
    (neg : bool) (magnitude : Z) :
  subject s = (neg, magnitude, true) ->
  let n := if neg then - magnitude else magnitude in
  if fits_signed bits n then strto_signed bits p s = (n, None)
  else snd (strto_signed bits p s) = Some ERANGE.
Proof.
  intros Hs n. unfold strto_signed. rewrite Hs. simpl. fold n.
  unfold fits_signed.
  destruct (Z.ltb_spec n (- 2 ^ (bits - 1))) as [Hlo|Hlo].
  - destruct (Z.leb_spec (- 2 ^ (bits - 1)) n); [lia|reflexivity].
  - destruct (Z.leb_spec (- 2 ^ (bits - 1)) n); [|lia]. simpl.
    destruct (Z.leb_spec (2 ^ (bits - 1)) n) as [Hhi|Hhi].
    + destruct (Z.ltb_spec n (2 ^ (bits - 1))); [lia|reflexivity].
    + destruct (Z.ltb_spec n (2 ^ (bits - 1))); [reflexivity|lia].
Qed.

(** The int32 branch in full, for a text with digits, [errno] clear at the
    call and no assertions: the parser works at the width of [long].  The
    value of the text is returned when it fits [long], converted to 32 bits;
    the default only when it does not fit [long]. *)
Lemma int32_text_branch :
  forall (p : Platform) (members : list (string * Value)) (member : string)
         (default_value : Z) (s : string) (neg : bool) (magnitude : Z),
    NDEBUG p = true ->
    MemberValue (JObject members) member = Some (JString s) ->
    subject (c_str s) = (neg, magnitude, true) ->
    ExtractFromNumericOrString p int32_t (JObject members) member default_value 0 =
      let n := if neg then - magnitude else magnitude in
      if fits_signed (LONG_BITS p) n then Returns (wrap_signed 32 n, 0)
      else Returns (default_value, ERANGE).
Proof.
  intros p members member d s neg magnitude Hn H Hs.
  rewrite (ExtractFromNumericOrString_present p int32_t _ _ d 0 _ H).
  cbn [IsNumber IsString GetString text_conversion]. unfold strtol.
  pose proof (strto_signed_digits (LONG_BITS p) p _ neg magnitude Hs) as Hc.
  cbv zeta in Hc |- *.
  destruct (fits_signed (LONG_BITS p) (if neg then - magnitude else magnitude)).
  - rewrite Hc. cbn [fst snd]. apply after_strto_silent.
  - destruct (strto_signed (LONG_BITS p) p (c_str s)) as [x code].
    cbn [fst snd] in Hc |- *. subst code.
    rewrite after_strto_reported, Hn. reflexivity.
Qed.

(** X8.  Where [long] has 64 bits the int32 branch returns, for a text whose
    value fits 64 bits, that value reduced to 32 bits: a value beyond the
    signed 32-bit range comes back wrapped, and the default is not used. *)
Theorem ExtractFromNumericOrString_int32_wraps_on_64_bit_long :
  forall (p : Platform) (members : list (string * Value)) (member : string)
         (default_value : Z) (s : string) (neg : bool) (magnitude : Z),
    LONG_BITS p = 64 ->
    NDEBUG p = true ->
    MemberValue (JObject members) member = Some (JString s) ->
    subject (c_str s) = (neg, magnitude, true) ->
    fits_signed 64 (if neg then - magnitude else magnitude) = true ->
    ExtractFromNumericOrString p int32_t (JObject members) member default_value 0 =
      Returns (wrap_signed 32 (if neg then - magnitude else magnitude), 0).
Proof.
  intros p members member d s neg magnitude Hl Hn H Hs Hf.
  rewrite (int32_text_branch p _ _ d s neg magnitude Hn H Hs).
  rewrite Hl. cbv zeta. now rewrite Hf.
Qed.

Lemma ExtractFromNumericOrString_int32_wraps_example :
  ExtractFromNumericOrString (linux_x86_64 true) int32_t text_doc "big" 7 0 =
    Returns (wrap_signed 32 99999999999999, 0).
Proof.
  apply (ExtractFromNumericOrString_int32_wraps_on_64_bit_long (linux_x86_64 true) _ "big" 7
           "99999999999999" false 99999999999999); reflexivity.
Defined.

(** X7.  Where [long] has 32 bits the int32 branch never returns a wrapped
    value: what it returns for a text with digits is the value of the text or
    the default. *)
Theorem ExtractFromNumericOrString_int32_exact_on_32_bit_long :
  forall (p : Platform) (members : list (string * Value)) (member : string)
         (default_value : Z) (s : string) (neg : bool) (magnitude : Z),
    LONG_BITS p = 32 ->
    NDEBUG p = true ->
    MemberValue (JObject members) member = Some (JString s) ->
    subject (c_str s) = (neg, magnitude, true) ->
    ExtractFromNumericOrString p int32_t (JObject members) member default_value 0 =
      let n := if neg then - magnitude else magnitude in
      if fits_signed 32 n then Returns (n, 0) else Returns (default_value, ERANGE).
Proof.
  intros p members member d s neg magnitude Hl Hn H Hs.
  rewrite (int32_text_branch p _ _ d s neg magnitude Hn H Hs).
  rewrite Hl. simpl.
  destruct (fits_signed 32 (if neg then - magnitude else magnitude)) eqn:E;
    [|reflexivity].
  now rewrite wrap_signed_fits.
Qed.

Lemma ExtractFromNumericOrString_int32_exact_example :
  ExtractFromNumericOrString (windows_x64 true) int32_t text_doc "n" 7 0 =
    let n := 42 in
    if fits_signed 32 n then Returns (n, 0) else Returns (7, ERANGE).
Proof.
  apply (ExtractFromNumericOrString_int32_exact_on_32_bit_long (windows_x64 true) _ "n" 7
           "42" false 42); reflexivity.
Defined.

(** Parsing stops at the first character that is no digit: what follows
    the number does not make the call fail.  Leading white space and a sign
    are read; [strtoul] negates in the unsigned type. *)
Example ExtractFromNumericOrString_permissive :
  ExtractFromNumericOrString (linux_x86_64 false) int32_t
      (JObject [("k", JString "10 apples")]) "k" 0 0 = Returns (10, 0)
  /\ ExtractFromNumericOrString (linux_x86_64 false) int32_t
      (JObject [("k", JString "  -42xyz")]) "k" 0 0 = Returns (-42, 0)
  /\ ExtractFromNumericOrString (linux_x86_64 false) uint32_t
      (JObject [("k", JString "-1")]) "k" 0 0 = Returns (4294967295, 0)
  /\ ExtractFromNumericOrString (linux_x86_64 false) floating_point
      (JObject [("k", JString "0.5")]) "k" (S754_zero false) 0
      = Returns (S754_finite false 4503599627370496 (-53), 0).
Proof. repeat apply conj; reflexivity. Qed.

(** The end-to-end example of the specification, for the Coercing
    Extractor: the text ["10"] gives 10; the text ["bad"] gives 0, not the
    default -1. *)
Example ExtractFromNumericOrString_on_example :
  ExtractFromNumericOrString (linux_x86_64 false) int32_t example_doc "b" 0 0
    = Returns (10, 0)
  /\ ExtractFromNumericOrString (linux_x86_64 false) int32_t example_doc "c" (-1) 0
    = Returns (0, 0).
Proof. repeat apply conj; reflexivity. Qed.

(** Without assertions [ExtractFromNumericOrString] always returns,
    whatever the document, the Tag, the text and [errno]. *)
Theorem ExtractFromNumericOrString_returns_without_assertions :
  forall (p : Platform) (T : DataType) (doc : Value) (member : string)
         (default_value : value_of T) (errno : Z),
    NDEBUG p = true ->
    exists r, ExtractFromNumericOrString p T doc member default_value errno = Returns r.
Proof.
  intros p T doc member d errno Hn.
  destruct (MemberValue doc member) as [v|] eqn:E.
  - rewrite (ExtractFromNumericOrString_present p T _ _ d errno v E).
    destruct (IsNumber v).
    + destruct (Extract_returns p T doc member d Hn) as [x ->].
      simpl. eauto.
    + destruct (IsString v); [|eauto].
      destruct (text_conversion p T (GetString v)) as [[x code]|]; [|eauto].
      unfold after_strto, cassert. rewrite Hn. simpl.
      destruct (negb _); eauto.
  - rewrite (ExtractFromNumericOrString_absent p T _ _ d errno E). eauto.
Qed.

Lemma ExtractFromNumericOrString_returns_example :
  exists r,
    ExtractFromNumericOrString (windows_x64 true) int32_t text_doc "big" 0 0 = Returns r.
Proof.
  apply (ExtractFromNumericOrString_returns_without_assertions (windows_x64 true) int32_t).
  reflexivity.
Defined.

(** * The document loader *)

Import stdio loader text families.

(** [ParseFile] on a file that opens, by whether the buffer is given. *)
Lemma ParseFile_readable
    (ParseStream : string -> Value -> World -> Value * bool * World)
    (p : Platform) (file_name : string) (doc : Value) (w : World)
    (content : string) :
  file_system w (c_str file_name) = Readable content ->
  ParseFile ParseStream p file_name doc w =
    if BUFFER_SIZE <=? heap_free w then
      let '(document, has_parse_error, w1) := ParseStream content doc (parsing_world w) in
      Returns (negb has_parse_error, document, free BUFFER_SIZE (fclose w1))
    else
      Returns (false, doc,
               store_errno (out_of_memory_code w)
                 {| file_system := file_system w; open_streams := open_streams w + 1;
                    heap_blocks := heap_blocks w; heap_free := heap_free w;
                    out_of_memory_code := out_of_memory_code w; errno := errno w |}).
Proof.
  intros H. unfold ParseFile, fopen, malloc. rewrite H. cbn [heap_free].
  destruct (BUFFER_SIZE <=? heap_free w); cbn [negb]; reflexivity.
Qed.

Lemma ParseFile_unreadable
    (ParseStream : string -> Value -> World -> Value * bool * World)
    (p : Platform) (file_name : string) (doc : Value) (w : World)
    (code : option Z) :
  file_system w (c_str file_name) = Unreadable code ->
  ParseFile ParseStream p file_name doc w =
    if NDEBUG p then Returns (false, doc, store_errno code w) else AssertionFailed.
Proof.
  intros H. unfold ParseFile, fopen, cassert. rewrite H.
  now destruct (NDEBUG p).
Qed.

(** X17.  [ParseFile] returns true exactly when the file opens, the buffer
    of 65536 bytes is given and the parse, run with the stream open and the
    buffer allocated, reports no error; the document is then what the parse
    left, and the world is the one the parse left with the stream closed and
    the buffer freed: what the parse allocated for the document stays
    allocated. *)
Theorem ParseFile_true_iff :
  forall (ParseStream : string -> Value -> World -> Value * bool * World)
         (p : Platform) (file_name : string) (out_document document : Value)
         (w w' : World),
    ParseFile ParseStream p file_name out_document w = Returns (true, document, w')
    <-> exists (content : string) (w1 : World),
          file_system w (c_str file_name) = Readable content
          /\ BUFFER_SIZE <= heap_free w
          /\ ParseStream content out_document (parsing_world w) = (document, false, w1)
          /\ w' = free BUFFER_SIZE (fclose w1).
Proof.
  intros PS p name doc doc' w w'. split.
  - intros H. destruct (file_system w (c_str name)) as [content|code] eqn:E.
    + rewrite (ParseFile_readable PS p name doc w content E) in H.
      destruct (Z.leb_spec BUFFER_SIZE (heap_free w)) as [Hh|Hh]; [|discriminate].
      destruct (PS content doc (parsing_world w)) as [[d e] w1] eqn:Ep.
      injection H as He <- <-. apply negb_true_iff in He. subst e.
      exists content, w1. repeat split; assumption.
    + rewrite (ParseFile_unreadable PS p name doc w code E) in H.
      destruct (NDEBUG p); discriminate.
  - intros (content & w1 & E & Hh & Ep & ->).
    rewrite (ParseFile_readable PS p name doc w content E), Ep.
    apply Z.leb_le in Hh. now rewrite Hh.
Qed.

(** [ParseFile] on the one file of the example world: the document is read,
    no stream is left open, and the heap holds the block of the document and
    nothing of the read buffer. *)
Lemma ParseFile_example_run :
  ParseFile integer_reader (linux_x86_64 false) "answer.json" JNull
    (one_file_world 1048576)
  = Returns (true, JInt 42,
             free BUFFER_SIZE
               (fclose (snd (integer_reader "42" JNull
                               (parsing_world (one_file_world 1048576)))))).
Proof.
  now rewrite (ParseFile_readable integer_reader (linux_x86_64 false) "answer.json"
                 JNull (one_file_world 1048576) "42" eq_refl).
Qed.

Example ParseFile_example_world :
  let w' := free BUFFER_SIZE
              (fclose (snd (integer_reader "42" JNull
                              (parsing_world (one_file_world 1048576))))) in
  open_streams w' = 0 /\ heap_blocks w' = 1
  /\ heap_free w' = 1048576 - DOCUMENT_BYTES /\ errno w' = 0.
Proof. repeat split. Qed.

Lemma ParseFile_true_example :
  ParseFile integer_reader (linux_x86_64 false) "answer.json" JNull
    (one_file_world 1048576)
  = Returns (true, JInt 42,
             free BUFFER_SIZE
               (fclose (snd (integer_reader "42" JNull
                               (parsing_world (one_file_world 1048576))))))
  <-> exists (content : string) (w1 : World),
        file_system (one_file_world 1048576) (c_str "answer.json") = Readable content
        /\ BUFFER_SIZE <= heap_free (one_file_world 1048576)
        /\ integer_reader content JNull (parsing_world (one_file_world 1048576))
           = (JInt 42, false, w1)
        /\ free BUFFER_SIZE
             (fclose (snd (integer_reader "42" JNull
                             (parsing_world (one_file_world 1048576)))))
           = free BUFFER_SIZE (fclose w1).
Proof.
  exact (ParseFile_true_iff integer_reader (linux_x86_64 false) "answer.json" JNull
           (JInt 42) (one_file_world 1048576)
           (free BUFFER_SIZE
              (fclose (snd (integer_reader "42" JNull
                              (parsing_world (one_file_world 1048576))))))).
Defined.

(** X18.  When the file opens and the buffer is not given, [ParseFile]
    returns false with the document untouched and leaves the stream open: one
    more open stream than before, which no later statement closes.  The heap
    is as it was. *)
Theorem ParseFile_allocation_failure_leaves_stream_open :
  forall (ParseStream : string -> Value -> World -> Value * bool * World)
         (p : Platform)
         (file_name : string) (out_document : Value) (w : World) (content : string),
    file_system w (c_str file_name) = Readable content ->
    heap_free w < BUFFER_SIZE ->
    exists w',
      ParseFile ParseStream p file_name out_document w
        = Returns (false, out_document, w')
      /\ open_streams w' = open_streams w + 1
      /\ heap_blocks w' = heap_blocks w
      /\ heap_free w' = heap_free w.
Proof.
  intros PS p name doc w content E Hh.
  rewrite (ParseFile_readable PS p name doc w content E).
  destruct (Z.leb_spec BUFFER_SIZE (heap_free w)) as [Hg|_]; [lia|].
  eexists. split; [reflexivity|].
  destruct (out_of_memory_code w); simpl; repeat split.
Qed.

Lemma ParseFile_allocation_failure_example :
  exists w',
    ParseFile integer_reader (linux_x86_64 true) "answer.json" JNull (one_file_world 1000)
      = Returns (false, JNull, w')
    /\ open_streams w' = open_streams (one_file_world 1000) + 1
    /\ heap_blocks w' = heap_blocks (one_file_world 1000)
    /\ heap_free w' = heap_free (one_file_world 1000).
Proof.
  apply (ParseFile_allocation_failure_leaves_stream_open integer_reader
           (linux_x86_64 true) "answer.json" JNull (one_file_world 1000) "42");
    [reflexivity | reflexivity].
Defined.

(** X19.  Whenever [ParseFile] returns, either the parse did not run, and
    then the result is false and the document and the heap are as they were
    before the call; or the parse ran, the result is the negation of its
    error flag, the document is the one it left, and over the whole call the
    open streams, the allocated blocks and the free bytes change by exactly
    what the parse itself changed: the stream [ParseFile] opened is closed
    and its read buffer freed, and nothing the parse allocated is freed. *)
Theorem ParseFile_resources :
  forall (ParseStream : string -> Value -> World -> Value * bool * World)
         (p : Platform) (file_name : string) (out_document document : Value)
         (w w' : World) (b : bool),
    ParseFile ParseStream p file_name out_document w = Returns (b, document, w') ->
    (b = false /\ document = out_document
     /\ heap_blocks w' = heap_blocks w /\ heap_free w' = heap_free w)
    \/ exists (content : string) (w1 : World),
         file_system w (c_str file_name) = Readable content
         /\ ParseStream content out_document (parsing_world w) = (document, negb b, w1)
         /\ open_streams w' - open_streams w
            = open_streams w1 - open_streams (parsing_world w)
         /\ heap_blocks w' - heap_blocks w
            = heap_blocks w1 - heap_blocks (parsing_world w)
         /\ heap_free w' - heap_free w
            = heap_free w1 - heap_free (parsing_world w)
         /\ errno w' = errno w1.
Proof.
  intros PS p name doc doc' w w' b H.
  destruct (file_system w (c_str name)) as [content|code] eqn:E.
  - rewrite (ParseFile_readable PS p name doc w content E) in H.
    destruct (Z.leb_spec BUFFER_SIZE (heap_free w)) as [Hh|Hh].
    + destruct (PS content doc (parsing_world w)) as [[d e] w1] eqn:Ep.
      injection H as <- <- <-. right. exists content, w1.
      rewrite negb_involutive.
      split; [reflexivity|]. split; [exact Ep|].
      unfold free, fclose, parsing_world.
      cbn [open_streams heap_blocks heap_free errno].
      repeat split; lia.
    + injection H as <- <- <-. left.
      destruct (out_of_memory_code w); simpl; repeat split.
  - rewrite (ParseFile_unreadable PS p name doc w code E) in H.
    destruct (NDEBUG p); [|discriminate].
    injection H as <- <- <-. left. destruct code; simpl; repeat split.
Qed.

Lemma ParseFile_resources_example :
  (true = false /\ JInt 42 = JNull
   /\ heap_blocks
        (free BUFFER_SIZE
           (fclose (snd (integer_reader "42" JNull
                           (parsing_world (one_file_world 1048576))))))
      = heap_blocks (one_file_world 1048576)
   /\ heap_free
        (free BUFFER_SIZE
           (fclose (snd (integer_reader "42" JNull
                           (parsing_world (one_file_world 1048576))))))
      = heap_free (one_file_world 1048576))
  \/ exists (content : string) (w1 : World),
       file_system (one_file_world 1048576) (c_str "answer.json") = Readable content
       /\ integer_reader content JNull (parsing_world (one_file_world 1048576))
          = (JInt 42, negb true, w1)
       /\ open_streams
            (free BUFFER_SIZE
               (fclose (snd (integer_reader "42" JNull
                               (parsing_world (one_file_world 1048576))))))
          - open_streams (one_file_world 1048576)
          = open_streams w1 - open_streams (parsing_world (one_file_world 1048576))
       /\ heap_blocks
            (free BUFFER_SIZE
               (fclose (snd (integer_reader "42" JNull
                               (parsing_world (one_file_world 1048576))))))
          - heap_blocks (one_file_world 1048576)
          = heap_blocks w1 - heap_blocks (parsing_world (one_file_world 1048576))
       /\ heap_free
            (free BUFFER_SIZE
               (fclose (snd (integer_reader "42" JNull
                               (parsing_world (one_file_world 1048576))))))
          - heap_free (one_file_world 1048576)
          = heap_free w1 - heap_free (parsing_world (one_file_world 1048576))
       /\ errno
            (free BUFFER_SIZE
               (fclose (snd (integer_reader "42" JNull
                               (parsing_world (one_file_world 1048576))))))
          = errno w1.
Proof.
  apply (ParseFile_resources integer_reader (linux_x86_64 false) "answer.json" JNull
           (JInt 42) (one_file_world 1048576)
           (free BUFFER_SIZE
              (fclose (snd (integer_reader "42" JNull
                              (parsing_world (one_file_world 1048576))))))
           true).
  apply ParseFile_example_run.
Defined.

(** * The Validator and the Typed Extractor together *)

Lemma Extract_stops (p : Platform) (T : DataType)
    (members : list (string * Value)) (member : string) (d : value_of T) :
  Extract p T (JObject members) member d = AssertionFailed
  <-> NDEBUG p = false
      /\ T = int32_t
      /\ exists v, MemberValue (JObject members) member = Some v
                   /\ IsNumber v = true /\ IsInt v = false.
Proof.
  destruct (MemberValue (JObject members) member) as [v|] eqn:E.
  - rewrite (Extract_present p T _ _ d v E). unfold debug_check_fails. split.
    + intros H. destruct (policy_value T v) as [x|] eqn:Ex; [discriminate|].
      destruct (NDEBUG p); [discriminate|].
      destruct T; simpl in H; try discriminate.
      destruct (IsNumber v) eqn:En; [|discriminate].
      repeat split. exists v. repeat split; [assumption|].
      destruct v; simpl in *; try discriminate; try reflexivity.
      now destruct (fits_signed 32 i).
    + intros (Hn & -> & w & [= <-] & En & Ei). rewrite Hn, En. simpl.
      destruct v; simpl in *; try discriminate; try reflexivity.
      now rewrite Ei.
  - unfold Extract. rewrite (HasMember_None _ _ E). simpl. split; [discriminate|].
    now intros (_ & _ & v & [=] & _).
Qed.


(** X3.  [Extract] is stopped by its assertion in exactly one situation: a
    build with assertions, the int32 Tag, and a member that is a number and
    not a 32-bit integer.  In every other situation it returns. *)
Theorem Extract_stops_iff :
  forall (p : Platform) (T : DataType) (members : list (string * Value))
         (member : string) (default_value : value_of T),
    Extract p T (JObject members) member default_value = AssertionFailed
    <-> NDEBUG p = false
        /\ T = int32_t
        /\ exists v, MemberValue (JObject members) member = Some v
                     /\ IsNumber v = true /\ IsInt v = false.
Proof. intros p T members member d. apply Extract_stops. Qed.

Lemma Extract_stops_example :
  Extract (linux_x86_64 false) int32_t example_doc "half" 0 = AssertionFailed
  <-> NDEBUG (linux_x86_64 false) = false
      /\ int32_t = int32_t
      /\ exists v, MemberValue example_doc "half" = Some v
                   /\ IsNumber v = true /\ IsInt v = false.
Proof. exact (Extract_stops_iff (linux_x86_64 false) int32_t _ "half" 0). Defined.

(** X2.  Where [IsValid] is false, a build without assertions makes
    [Extract] return the default: together with the case where [IsValid] is
    true, [Extract] yields something other than its default only for a member
    that [IsValid] accepts. *)
Theorem Extract_default_where_not_valid :
  forall (p : Platform) (T : DataType) (members : list (string * Value))
         (member : string) (default_value : value_of T),
    NDEBUG p = true ->
    IsValid T (JObject members) member = false ->
    Extract p T (JObject members) member default_value = Returns default_value.
Proof.
  intros p T members member d Hn Hv.
  destruct (MemberValue (JObject members) member) as [v|] eqn:E.
  - rewrite (Extract_present p T _ _ d v E). unfold debug_check_fails. rewrite Hn.
    destruct (policy_value T v) as [x|] eqn:Ex; [|reflexivity].
    assert (Hk : kind_policy T v) by (apply policy_value_matches; now rewrite Ex).
    apply (policy_decided T _ _ _ E) in Hk. congruence.
  - unfold Extract. now rewrite (HasMember_None _ _ E).
Qed.

Lemma Extract_default_where_not_valid_example :
  Extract (linux_x86_64 true) int32_t example_doc "b" 7 = Returns 7.
Proof.
  apply (Extract_default_where_not_valid (linux_x86_64 true) int32_t); reflexivity.
Defined.

Lemma fits_signed_widen (i : Z) : fits_signed 32 i = true -> fits_signed 64 i = true.
Proof. rewrite !fits_signed_iff. simpl. lia. Qed.

Lemma fits_unsigned_widen (i : Z) :
  fits_unsigned 32 i = true -> fits_unsigned 64 i = true /\ fits_signed 64 i = true.
Proof. rewrite fits_signed_iff, !fits_unsigned_iff. simpl. lia. Qed.

(** X4.  A member valid for a 32-bit integer Tag is valid for the wider
    Tags that hold its range, and [Extract] at the wider Tag returns the same
    integer: int32 widens to int64, uint32 to uint64 and to int64. *)
Theorem IsValid_Extract_widen :
  forall (p : Platform) (members : list (string * Value)) (member : string)
         (d32 d64 : Z),
    (IsValid int32_t (JObject members) member = true ->
       IsValid int64_t (JObject members) member = true
       /\ Extract p int64_t (JObject members) member d64
            = Extract p int32_t (JObject members) member d32)
    /\ (IsValid uint32_t (JObject members) member = true ->
       IsValid uint64_t (JObject members) member = true
       /\ IsValid int64_t (JObject members) member = true
       /\ Extract p uint64_t (JObject members) member d64
            = Extract p uint32_t (JObject members) member d32
       /\ Extract p int64_t (JObject members) member d64
            = Extract p uint32_t (JObject members) member d32).
Proof.
  intros p members member d32 d64.
  destruct (MemberValue (JObject members) member) as [v|] eqn:E.
  - rewrite !(IsValid_present _ _ _ _ E).
    rewrite (Extract_present p int32_t _ _ d32 v E),
            (Extract_present p uint32_t _ _ d32 v E),
            (Extract_present p int64_t _ _ d64 v E),
            (Extract_present p uint64_t _ _ d64 v E).
    split; intros H; destruct v; simpl in H; try discriminate; simpl.
    + rewrite H, (fits_signed_widen _ H). split; reflexivity.
    + destruct (fits_unsigned_widen _ H) as [Hu Hs].
      rewrite H, Hu, Hs. repeat split; reflexivity.
  - rewrite !(IsValid_absent _ _ _ E). split; discriminate.
Qed.

Lemma IsValid_Extract_widen_example :
  (IsValid int32_t example_doc "a" = true ->
     IsValid int64_t example_doc "a" = true
     /\ Extract (linux_x86_64 false) int64_t example_doc "a" 0
          = Extract (linux_x86_64 false) int32_t example_doc "a" 1)
  /\ (IsValid uint32_t example_doc "a" = true ->
     IsValid uint64_t example_doc "a" = true
     /\ IsValid int64_t example_doc "a" = true
     /\ Extract (linux_x86_64 false) uint64_t example_doc "a" 0
          = Extract (linux_x86_64 false) uint32_t example_doc "a" 1
     /\ Extract (linux_x86_64 false) int64_t example_doc "a" 0
          = Extract (linux_x86_64 false) uint32_t example_doc "a" 1).
Proof. exact (IsValid_Extract_widen (linux_x86_64 false) _ "a" 1 0). Defined.

(** X5.  One member is never valid for Tags of two families: the integer
    Tags, the floating Tags, the boolean Tag and the string Tags exclude one
    another, and a member that [IsValidArray] or [IsValidObject] accepts is
    valid for no Tag at all. *)
Theorem IsValid_families_exclusive :
  forall (members : list (string * Value)) (member : string),
    (forall T1 T2,
       IsValid T1 (JObject members) member = true ->
       IsValid T2 (JObject members) member = true ->
       family_of T1 = family_of T2)
    /\ (forall T,
          IsValidArray (JObject members) member = true
          \/ IsValidObject (JObject members) member = true ->
          IsValid T (JObject members) member = false)
    /\ (IsValidArray (JObject members) member = true ->
        IsValidObject (JObject members) member = false).
Proof.
  intros members member. unfold IsValidArray, IsValidObject.
  destruct (MemberValue (JObject members) member) as [v|] eqn:E.
  - destruct (HasMember_Some _ _ _ E) as [Hh Hs]. rewrite Hh, Hs. cbn [andb].
    split; [|split].
    + intros T1 T2. rewrite !(IsValid_present _ _ _ _ E).
      destruct T1, T2, v; simpl; intros H1 H2; try discriminate; reflexivity.
    + intros T [H|H]; rewrite (IsValid_present _ _ _ _ E);
        destruct v; simpl in H; try discriminate; now destruct T.
    + destruct v; simpl; intros H; try discriminate; reflexivity.
  - rewrite (HasMember_None _ _ E). cbn [andb]. split; [|split].
    + intros T1 T2 H. now rewrite (IsValid_absent _ _ _ E) in H.
    + intros T _. now apply IsValid_absent.
    + discriminate.
Qed.

Lemma IsValid_families_exclusive_example :
  (forall T1 T2,
     IsValid T1 example_doc "list" = true ->
     IsValid T2 example_doc "list" = true ->
     family_of T1 = family_of T2)
  /\ (forall T,
        IsValidArray example_doc "list" = true
        \/ IsValidObject example_doc "list" = true ->
        IsValid T example_doc "list" = false)
  /\ (IsValidArray example_doc "list" = true ->
      IsValidObject example_doc "list" = false).
Proof. exact (IsValid_families_exclusive _ "list"). Defined.

(** * More on the Coercing Extractor *)

Lemma text_stale_errno (p : Platform) (T : DataType)
    (members : list (string * Value)) (member : string) (d x : value_of T)
    (s : string) (errno : Z) :
  errno <> 0 ->
  MemberValue (JObject members) member = Some (JString s) ->
  text_conversion p T (c_str s) = Some (x, None) ->
  ExtractFromNumericOrString p T (JObject members) member d errno =
    if negb (NDEBUG p) && (errno =? ERANGE) then AssertionFailed
    else Returns (d, errno).
Proof.
  intros He H Hc.
  rewrite (ExtractFromNumericOrString_present p T _ _ d errno _ H).
  cbn [IsNumber IsString GetString]. rewrite Hc.
  unfold after_strto, cassert.
  destruct (Z.eqb_spec errno 0) as [|_]; [contradiction|].
  now destruct (NDEBUG p), (errno =? ERANGE).
Qed.

(** X13.  A call on a text member entered with [errno] other than 0 returns
    the default whenever the parser reports nothing, however well the text
    parses: the code tests [errno] after the parse and never clears it
    before.  [errno] is left as it was (in a build with assertions the call
    is stopped instead when [errno] holds [ERANGE]). *)
Theorem ExtractFromNumericOrString_stale_errno :
  forall (p : Platform) (T : DataType) (members : list (string * Value))
         (member : string) (default_value x : value_of T) (s : string) (errno : Z),
    errno <> 0 ->
    MemberValue (JObject members) member = Some (JString s) ->
    text_conversion p T (c_str s) = Some (x, None) ->
    ExtractFromNumericOrString p T (JObject members) member default_value errno =
      if negb (NDEBUG p) && (errno =? ERANGE) then AssertionFailed
      else Returns (default_value, errno).
Proof.
  intros p T members member d x s errno. apply text_stale_errno.
Qed.

Lemma ExtractFromNumericOrString_stale_errno_example :
  ExtractFromNumericOrString (linux_x86_64 false) int32_t text_doc "n" 7 2 =
    if negb (NDEBUG (linux_x86_64 false)) && (2 =? ERANGE) then AssertionFailed
    else Returns (7, 2).
Proof.
  apply (ExtractFromNumericOrString_stale_errno (linux_x86_64 false) int32_t _ "n" 7 42 "42" 2);
    [discriminate | reflexivity | reflexivity].
Defined.

(** The codes the integer parsers report. *)
Lemma strto_signed_code (bits : Z) (p : Platform) (s : string) :
  snd (strto_signed bits p s) = None
  \/ snd (strto_signed bits p s) = Some ERANGE
  \/ snd (strto_signed bits p s) = Some EINVAL.
Proof.
  unfold strto_signed, noconv. destruct (subject s) as [[neg magnitude] any].
  destruct any; simpl.
  - destruct (_ <? _); [auto|]. destruct (_ <=? _); auto.
  - destruct (noconv_EINVAL p); auto.
Qed.

Lemma strto_unsigned_code (bits : Z) (p : Platform) (s : string) :
  snd (strto_unsigned bits p s) = None
  \/ snd (strto_unsigned bits p s) = Some ERANGE
  \/ snd (strto_unsigned bits p s) = Some EINVAL.
Proof.
  unfold strto_unsigned, noconv. destruct (subject s) as [[neg magnitude] any].
  destruct any; simpl.
  - destruct (_ <=? _); auto.
  - destruct (noconv_EINVAL p); auto.
Qed.

Lemma after_strto_keeps_errno_set {A : Type} (p : Platform) (call : A * option Z)
    (d : A) (errno : Z) (r : A) (e : Z) :
  errno <> 0 ->
  snd call = None \/ snd call = Some ERANGE \/ snd call = Some EINVAL ->
  after_strto p call d errno = Returns (r, e) ->
  e <> 0 /\ r = d.
Proof.
  intros He Hc. destruct call as [x code]. unfold after_strto, cassert.
  simpl in Hc.
  destruct Hc as [-> | [-> | ->]].
  - destruct (Z.eqb_spec errno 0) as [|_]; [contradiction|].
    destruct (NDEBUG p || negb (errno =? ERANGE)); [|discriminate].
    simpl. now intros [= <- <-].
  - simpl. destruct (NDEBUG p || false); [|discriminate]. now intros [= <- <-].
  - simpl. destruct (NDEBUG p || true); [|discriminate]. now intros [= <- <-].
Qed.

(** X14.  No call of [ExtractFromNumericOrString] at a Tag that is not
    floating clears [errno]: entered with [errno] other than 0, it leaves
    [errno] other than 0 whenever it returns, so once one call has left an
    error code behind, every later call on a text member returns its default. *)
Theorem ExtractFromNumericOrString_never_clears_errno :
  forall (p : Platform) (T : DataType) (members : list (string * Value))
         (member : string) (default_value r : value_of T) (errno e : Z),
    family_of T <> Floating ->
    errno <> 0 ->
    ExtractFromNumericOrString p T (JObject members) member default_value errno
      = Returns (r, e) ->
    e <> 0
    /\ (forall s, MemberValue (JObject members) member = Some (JString s) ->
        r = default_value).
Proof.
  intros p T members member d r errno e Hf He H.
  destruct (MemberValue (JObject members) member) as [v|] eqn:E.
  - rewrite (ExtractFromNumericOrString_present p T _ _ d errno v E) in H.
    destruct (IsNumber v) eqn:En.
    + destruct (Extract p T (JObject members) member d); [|discriminate].
      simpl in H. injection H as <- <-. split; [assumption|].
      intros s [= ->]. discriminate.
    + destruct (IsString v) eqn:Es.
      * assert (Hd : e <> 0 /\ r = d).
        { destruct T; cbn [text_conversion] in H;
            try (injection H as <- <-; now split);
            try (exfalso; apply Hf; reflexivity);
            apply (after_strto_keeps_errno_set p _ d errno r e He) in H;
            try assumption; cbn [snd];
            first [apply strto_signed_code | apply strto_unsigned_code]. }
        destruct Hd as [Hd1 Hd2]. split; [assumption|]. now intros _ _.
      * injection H as <- <-. split; [assumption|].
        intros s [= ->]. discriminate.
  - rewrite (ExtractFromNumericOrString_absent p T _ _ d errno E) in H.
    injection H as <- <-. split; [assumption|]. intros s [=].
Qed.

Lemma ExtractFromNumericOrString_never_clears_errno_example :
  ERANGE <> 0
  /\ (forall s, MemberValue text_doc "n" = Some (JString s) -> 7 = 7).
Proof.
  apply (ExtractFromNumericOrString_never_clears_errno (windows_x64 true) int32_t
           _ "n" 7 7 ERANGE ERANGE); [discriminate | discriminate | reflexivity].
Defined.

(** X15.  For a Tag without a text branch (boolean, string, generic
    integral) [ExtractFromNumericOrString] reads numbers only: on a member
    that is not a number it returns the default, also where the member's kind
    matches the Tag and [Extract] would return the stored value. *)
Theorem ExtractFromNumericOrString_reads_numbers_only :
  forall (p : Platform) (T : DataType) (members : list (string * Value))
         (member : string) (default_value : value_of T) (errno : Z) (v : Value),
    has_text_branch T = false ->
    MemberValue (JObject members) member = Some v ->
    IsNumber v = false ->
    ExtractFromNumericOrString p T (JObject members) member default_value errno
      = Returns (default_value, errno).
Proof.
  intros p T members member d errno v Ht H En.
  rewrite (ExtractFromNumericOrString_present p T _ _ d errno v H), En.
  destruct (IsString v); [|reflexivity].
  now destruct T.
Qed.

Lemma ExtractFromNumericOrString_reads_numbers_only_example :
  ExtractFromNumericOrString (linux_x86_64 false) cpp_bool example_doc "d" false 0
    = Returns (false, 0).
Proof.
  apply (ExtractFromNumericOrString_reads_numbers_only (linux_x86_64 false) cpp_bool
           _ "d" false 0 (JBool true)); reflexivity.
Defined.

(** *** The branches of the 64-bit and unsigned Tags *)

Lemma after_strto_range_error {A : Type} (p : Platform) (x d : A) :
  after_strto p (x, Some ERANGE) d 0 =
    if NDEBUG p then Returns (d, ERANGE) else AssertionFailed.
Proof. unfold after_strto, cassert. now destruct (NDEBUG p). Qed.

(** A text with digits, read by the unsigned parser. *)
Lemma strto_unsigned_digits (bits : Z) (p : Platform) (s : string)
    (neg : bool) (magnitude : Z) :
  subject s = (neg, magnitude, true) ->
  if magnitude <? 2 ^ bits then
    strto_unsigned bits p s
      = (if neg then wrap_unsigned bits (- magnitude) else magnitude, None)
  else strto_unsigned bits p s = (2 ^ bits - 1, Some ERANGE).
Proof.
  intros Hs. unfold strto_unsigned. rewrite Hs. simpl.
  destruct (Z.ltb_spec magnitude (2 ^ bits)), (Z.leb_spec (2 ^ bits) magnitude);
    try lia; reflexivity.
Qed.

Lemma int64_text_branch (p : Platform) (members : list (string * Value))
    (member : string) (d : Z) (s : string) (neg : bool) (magnitude : Z) :
  MemberValue (JObject members) member = Some (JString s) ->
  subject (c_str s) = (neg, magnitude, true) ->
  ExtractFromNumericOrString p int64_t (JObject members) member d 0 =
    let n := if neg then - magnitude else magnitude in
    if fits_signed 64 n then Returns (n, 0)
    else if NDEBUG p then Returns (d, ERANGE) else AssertionFailed.
Proof.
  intros H Hs.
  rewrite (ExtractFromNumericOrString_present p int64_t _ _ d 0 _ H).
  cbn [IsNumber IsString GetString text_conversion]. unfold strtoll.
  pose proof (strto_signed_digits 64 p _ neg magnitude Hs) as Hc.
  cbv zeta in Hc |- *.
  destruct (fits_signed 64 (if neg then - magnitude else magnitude)).
  - rewrite Hc. apply after_strto_silent.
  - destruct (strto_signed 64 p (c_str s)) as [x code].
    cbn [snd] in Hc. subst code. apply after_strto_range_error.
Qed.

(** X10.  The int64 Tag reads a text with digits exactly on every platform:
    called with [errno] 0 it returns the value of the text when that fits the
    signed 64-bit range, and otherwise the default with [ERANGE] left in
    [errno] (a build with assertions is stopped instead).  No value comes
    back wrapped. *)
Theorem ExtractFromNumericOrString_int64_text :
  forall (p : Platform) (members : list (string * Value)) (member : string)
         (default_value : Z) (s : string) (neg : bool) (magnitude : Z),
    MemberValue (JObject members) member = Some (JString s) ->
    subject (c_str s) = (neg, magnitude, true) ->
    ExtractFromNumericOrString p int64_t (JObject members) member default_value 0 =
      let n := if neg then - magnitude else magnitude in
      if fits_signed 64 n then Returns (n, 0)
      else if NDEBUG p then Returns (default_value, ERANGE) else AssertionFailed.
Proof.
  intros p members member d s neg magnitude. apply int64_text_branch.
Qed.

Lemma ExtractFromNumericOrString_int64_text_example :
  ExtractFromNumericOrString (windows_x64 false) int64_t text_doc "big" 7 0 =
    let n := 99999999999999 in
    if fits_signed 64 n then Returns (n, 0)
    else if NDEBUG (windows_x64 false) then Returns (7, ERANGE) else AssertionFailed.
Proof.
  apply (ExtractFromNumericOrString_int64_text (windows_x64 false) _ "big" 7
           "99999999999999" false 99999999999999); reflexivity.
Defined.

(** X11.  The uint64 Tag reads the magnitude of a text with digits when it
    is below 2^64, and a minus sign does not make the call fail: the
    magnitude is negated in the unsigned type, so the text of -n comes back
    as 2^64 - n.  A magnitude of 2^64 or more gives the default with
    [ERANGE] (a build with assertions is stopped instead). *)
Theorem ExtractFromNumericOrString_uint64_text :
  forall (p : Platform) (members : list (string * Value)) (member : string)
         (default_value : Z) (s : string) (neg : bool) (magnitude : Z),
    MemberValue (JObject members) member = Some (JString s) ->
    subject (c_str s) = (neg, magnitude, true) ->
    ExtractFromNumericOrString p uint64_t (JObject members) member default_value 0 =
      (if magnitude <? 2 ^ 64 then
         Returns (if neg then wrap_unsigned 64 (- magnitude) else magnitude, 0)
       else if NDEBUG p then Returns (default_value, ERANGE) else AssertionFailed)
    /\ (neg = true -> 0 < magnitude < 2 ^ 64 ->
        ExtractFromNumericOrString p uint64_t (JObject members) member default_value 0
          = Returns (2 ^ 64 - magnitude, 0)).
Proof.
  intros p members member d s neg magnitude H Hs.
  assert (Hmain :
    ExtractFromNumericOrString p uint64_t (JObject members) member d 0 =
      if magnitude <? 2 ^ 64 then
        Returns (if neg then wrap_unsigned 64 (- magnitude) else magnitude, 0)
      else if NDEBUG p then Returns (d, ERANGE) else AssertionFailed).
  { rewrite (ExtractFromNumericOrString_present p uint64_t _ _ d 0 _ H).
    cbn [IsNumber IsString GetString text_conversion]. unfold strtoull.
    pose proof (strto_unsigned_digits 64 p _ neg magnitude Hs) as Hc.
    destruct (magnitude <? 2 ^ 64); rewrite Hc.
    - apply after_strto_silent.
    - apply after_strto_range_error. }
  split; [exact Hmain|].
  intros -> Hm. rewrite Hmain.
  destruct (Z.ltb_spec magnitude (2 ^ 64)) as [_|Hge]; [|lia].
  do 2 f_equal. unfold wrap_unsigned.
  replace (- magnitude) with (2 ^ 64 - magnitude + (-1) * 2 ^ 64) by lia.
  rewrite Z.mod_add by lia. apply Z.mod_small. lia.
Qed.

Lemma ExtractFromNumericOrString_uint64_text_example :
  ExtractFromNumericOrString (linux_x86_64 false) uint64_t
      (JObject [("k", JString "-1")]) "k" 7 0 =
    (if 1 <? 2 ^ 64 then Returns (if true then wrap_unsigned 64 (- 1) else 1, 0)
     else if NDEBUG (linux_x86_64 false) then Returns (7, ERANGE) else AssertionFailed)
  /\ (true = true -> 0 < 1 < 2 ^ 64 ->
      ExtractFromNumericOrString (linux_x86_64 false) uint64_t
          (JObject [("k", JString "-1")]) "k" 7 0
        = Returns (2 ^ 64 - 1, 0)).
Proof.
  apply (ExtractFromNumericOrString_uint64_text (linux_x86_64 false) _ "k" 7 "-1" true 1);
    reflexivity.
Defined.

(** X9.  The uint32 Tag parses at the width of [unsigned long] and then
    keeps the low 32 bits: called with [errno] 0 on a text with digits whose
    magnitude is below 2^LONG_BITS it returns the parsed value modulo 2^32, so
    where [long] has 64 bits a magnitude between 2^32 and 2^64 comes back
    wrapped; only a magnitude of 2^LONG_BITS or more gives the default. *)
Theorem ExtractFromNumericOrString_uint32_text :
  forall (p : Platform) (members : list (string * Value)) (member : string)
         (default_value : Z) (s : string) (neg : bool) (magnitude : Z),
    MemberValue (JObject members) member = Some (JString s) ->
    subject (c_str s) = (neg, magnitude, true) ->
    ExtractFromNumericOrString p uint32_t (JObject members) member default_value 0 =
      if magnitude <? 2 ^ LONG_BITS p then
        Returns (wrap_unsigned 32
                   (if neg then wrap_unsigned (LONG_BITS p) (- magnitude)
                    else magnitude), 0)
      else if NDEBUG p then Returns (default_value, ERANGE) else AssertionFailed.
Proof.
  intros p members member d s neg magnitude H Hs.
  rewrite (ExtractFromNumericOrString_present p uint32_t _ _ d 0 _ H).
  cbn [IsNumber IsString GetString text_conversion]. unfold strtoul.
  pose proof (strto_unsigned_digits (LONG_BITS p) p _ neg magnitude Hs) as Hc.
  destruct (magnitude <? 2 ^ LONG_BITS p); rewrite Hc; cbn [fst snd].
  - apply after_strto_silent.
  - apply after_strto_range_error.
Qed.

Lemma ExtractFromNumericOrString_uint32_text_example :
  ExtractFromNumericOrString (linux_x86_64 true) uint32_t text_doc "big" 7 0 =
    if 99999999999999 <? 2 ^ LONG_BITS (linux_x86_64 true) then
      Returns (wrap_unsigned 32
                 (if false then wrap_unsigned (LONG_BITS (linux_x86_64 true))
                                  (- 99999999999999)
                  else 99999999999999), 0)
    else if NDEBUG (linux_x86_64 true) then Returns (7, ERANGE) else AssertionFailed.
Proof.
  apply (ExtractFromNumericOrString_uint32_text (linux_x86_64 true) _ "big" 7
           "99999999999999" false 99999999999999); reflexivity.
Defined.

(** *** Decimal texts *)

Lemma digit_cases (d : Z) :
  is_digit d ->
  d = 0 \/ d = 1 \/ d = 2 \/ d = 3 \/ d = 4 \/ d = 5 \/ d = 6 \/ d = 7 \/ d = 8 \/ d = 9.
Proof. unfold is_digit. lia. Qed.

Ltac each_digit d H :=
  destruct (digit_cases d H) as [->|[->|[->|[->|[->|[->|[->|[->|[->| ->]]]]]]]]].

Lemma digit_value_digit_char (d : Z) :
  is_digit d -> digit_value (digit_char d) = Some d.
Proof. intros H. each_digit d H; reflexivity. Qed.

Lemma digits_stop (t : string) (acc : Z) (any : bool) :
  starts_with_digit t = false -> digits t acc any = (acc, any).
Proof.
  destruct t as [|c t]; simpl; [reflexivity|].
  now destruct (digit_value c).
Qed.

(** The digit scanner reads a decimal text to its end, whatever follows. *)
Lemma digits_decimal_text (ds : list Z) (t : string) :
  Forall is_digit ds -> starts_with_digit t = false ->
  forall acc any,
    digits (decimal_text ds ++ t)%string acc any =
      (fold_left (fun a d => 10 * a + d) ds acc,
       match ds with [] => any | _ => true end).
Proof.
  intros Hd Ht. induction Hd as [|d ds Hd1 Hd2 IH]; intros acc any.
  - simpl. now apply digits_stop.
  - simpl. rewrite (digit_value_digit_char d Hd1), IH. now destruct ds.
Qed.

Lemma skip_space_app (ws r : string) :
  all_space ws = true -> skip_space (ws ++ r)%string = skip_space r.
Proof.
  induction ws as [|c ws IH]; simpl; [reflexivity|].
  intros H. apply andb_true_iff in H as [Hc Hw]. rewrite Hc. now apply IH.
Qed.

(** White space, a sign, digits, and anything that begins with no digit:
    the parsers' subject is the sign and the number the digits write. *)
Lemma subject_decimal (ws : string) (sg : sign) (ds : list Z) (t : string) :
  all_space ws = true -> ds <> [] -> Forall is_digit ds ->
  starts_with_digit t = false ->
  subject (ws ++ sign_text sg ++ decimal_text ds ++ t)%string =
    (match sg with Minus => true | _ => false end, decimal_value ds, true).
Proof.
  intros Hw Hn Hd Ht. unfold subject. rewrite (skip_space_app _ _ Hw).
  destruct ds as [|d ds]; [contradiction|].
  destruct sg; simpl.
  - inversion Hd as [|? ? Hd1 Hd2]; subst.
    pose proof (digits_decimal_text ds t Hd2 Ht) as Hr.
    each_digit d Hd1; simpl; rewrite Hr; now destruct ds.
  - pose proof (digits_decimal_text (d :: ds) t Hd Ht 0 false) as Hr.
    simpl in Hr. now rewrite Hr.
  - pose proof (digits_decimal_text (d :: ds) t Hd Ht 0 false) as Hr.
    simpl in Hr. now rewrite Hr.
Qed.

(** X12.  A number written in decimal is read back: when the stored text is
    white space, an optional sign, the decimal digits of a number within the
    signed 64-bit range, and then anything that begins with no digit, the
    int64 Tag returns that number on every platform and in either build, when
    [errno] is 0 at the call.  What follows the digits is ignored. *)
Theorem ExtractFromNumericOrString_int64_reads_decimal :
  forall (p : Platform) (members : list (string * Value)) (member : string)
         (default_value : Z) (s ws : string) (sg : sign) (ds : list Z) (t : string),
    MemberValue (JObject members) member = Some (JString s) ->
    c_str s = (ws ++ sign_text sg ++ decimal_text ds ++ t)%string ->
    all_space ws = true ->
    ds <> [] ->
    Forall is_digit ds ->
    starts_with_digit t = false ->
    fits_signed 64 (signed sg (decimal_value ds)) = true ->
    ExtractFromNumericOrString p int64_t (JObject members) member default_value 0
      = Returns (signed sg (decimal_value ds), 0).
Proof.
  intros p members member d s ws sg ds t H Hs Hw Hn Hd Ht Hf.
  pose proof (subject_decimal ws sg ds t Hw Hn Hd Ht) as Hsub.
  rewrite <- Hs in Hsub.
  rewrite (int64_text_branch p members member d s _ _ H Hsub). cbv zeta.
  replace (if match sg with Minus => true | _ => false end
           then - decimal_value ds else decimal_value ds)
    with (signed sg (decimal_value ds)) by now destruct sg.
  now rewrite Hf.
Qed.

Lemma ExtractFromNumericOrString_int64_reads_decimal_example :
  ExtractFromNumericOrString (windows_x64 false) int64_t
      (JObject [("k", JString "  -42xyz")]) "k" 7 0
    = Returns (signed Minus (decimal_value [4; 2]), 0).
Proof.
  apply (ExtractFromNumericOrString_int64_reads_decimal (windows_x64 false) _ "k" 7
           "  -42xyz" "  " Minus [4; 2] "xyz");
    try reflexivity; [discriminate | repeat constructor; unfold is_digit; lia].
Defined.

(** *** After a failed load *)

(** X20.  A failed [ParseFile] spoils later text reads.  When the file does
    not open and the library stores a code other than 0 into [errno], a build
    without assertions returns false with the document untouched and that
    code in [errno]; a call of [ExtractFromNumericOrString] made then on a
    text member of the document returns its default with the code still in
    [errno], although the parser reports no error for the text. *)
Theorem ParseFile_failure_spoils_text_reads :
  forall (ParseStream : string -> Value -> World -> Value * bool * World)
         (p : Platform)
         (file_name : string) (w : World) (code : Z)
         (T : DataType) (members : list (string * Value)) (member : string)
         (default_value x : value_of T) (s : string),
    NDEBUG p = true ->
    file_system w (c_str file_name) = Unreadable (Some code) ->
    code <> 0 ->
    MemberValue (JObject members) member = Some (JString s) ->
    text_conversion p T (c_str s) = Some (x, None) ->
    exists w',
      ParseFile ParseStream p file_name (JObject members) w
        = Returns (false, JObject members, w')
      /\ stdio.errno w' = code
      /\ open_streams w' = open_streams w
      /\ heap_free w' = heap_free w
      /\ ExtractFromNumericOrString p T (JObject members) member default_value
           (stdio.errno w') = Returns (default_value, code).
Proof.
  intros PS p name w code T members member d x s Hn Hf Hc H Ht.
  rewrite (ParseFile_unreadable PS p name _ w _ Hf), Hn.
  eexists. split; [reflexivity|]. simpl. repeat split.
  rewrite (text_stale_errno p T members member d x s code Hc H Ht), Hn.
  reflexivity.
Qed.

Lemma ParseFile_failure_spoils_text_reads_example :
  exists w',
    ParseFile integer_reader (linux_x86_64 true) "absent.json" text_doc
      (one_file_world 1048576)
      = Returns (false, text_doc, w')
    /\ stdio.errno w' = ENOENT
    /\ open_streams w' = open_streams (one_file_world 1048576)
    /\ heap_free w' = heap_free (one_file_world 1048576)
    /\ ExtractFromNumericOrString (linux_x86_64 true) int32_t text_doc "n" 7
         (stdio.errno w') = Returns (7, ENOENT).
Proof.
  apply (ParseFile_failure_spoils_text_reads integer_reader (linux_x86_64 true)
           "absent.json" (one_file_world 1048576) ENOENT int32_t _ "n" 7 42 "42");
    [reflexivity | reflexivity | discriminate | reflexivity | reflexivity].
Defined.

(** * More on CastKeepingBits *)

Module castkeepingbits_more.
Import castkeepingbits castkeepingbits_facts.

Lemma same_width (A B : IntegerType) : sizeof A = sizeof B -> width A = width B.
Proof. unfold width. now intros ->. Qed.

(** The cast between types of one size, as a function of the bits stored. *)
Lemma cast_same_size (ToType FromType : IntegerType) (x : Z) :
  sizeof FromType = sizeof ToType ->
  CastKeepingBits ToType FromType x
    = Some (value_representation ToType (object_representation FromType x)).
Proof. intros H. unfold CastKeepingBits. now rewrite H, Z.eqb_refl. Qed.

(** The bits of the result are the bits of the argument. *)
Lemma cast_bits (ToType FromType : IntegerType) (x : Z) :
  0 < sizeof ToType -> sizeof FromType = sizeof ToType ->
  object_representation ToType
    (value_representation ToType (object_representation FromType x))
  = object_representation FromType x.
Proof.
  intros Hp Hs. rewrite object_of_value_representation by assumption.
  unfold object_representation. rewrite (same_width _ _ Hs).
  apply wrap_unsigned_idem.
Qed.

End castkeepingbits_more.

(** X21.  Between a signed and an unsigned type of one size the cast is the
    two's complement reading: a negative value x becomes x + 2^width and a
    value that is not negative is unchanged; back, a value below 2^(width-1)
    is unchanged and a larger one becomes x - 2^width. *)
Theorem CastKeepingBits_sign_change :
  forall (S U : castkeepingbits.IntegerType) (x : Z),
    castkeepingbits.is_signed S = true ->
    castkeepingbits.is_signed U = false ->
    0 < castkeepingbits.sizeof S ->
    castkeepingbits.sizeof S = castkeepingbits.sizeof U ->
    (castkeepingbits.in_range S x = true ->
       castkeepingbits.CastKeepingBits U S x
         = Some (if x <? 0 then x + 2 ^ castkeepingbits.width S else x))
    /\ (castkeepingbits.in_range U x = true ->
       castkeepingbits.CastKeepingBits S U x
         = Some (if x <? 2 ^ (castkeepingbits.width S - 1) then x
                 else x - 2 ^ castkeepingbits.width S)).
Proof.
  intros S U x HS HU Hp Hs.
  pose proof (castkeepingbits_facts.width_pos S Hp) as Hw.
  pose proof (castkeepingbits_more.same_width S U Hs) as Hww.
  pose proof (pow2_split _ Hw) as H2. pose proof (pow2_pos (castkeepingbits.width S - 1)) as H3.
  split; intros Hx.
  - rewrite castkeepingbits_more.cast_same_size by assumption. f_equal.
    unfold castkeepingbits.in_range in Hx. rewrite HS in Hx.
    apply fits_signed_iff in Hx.
    unfold castkeepingbits.value_representation,
      castkeepingbits.object_representation. rewrite HU, <- Hww.
    rewrite wrap_unsigned_idem. unfold wrap_unsigned.
    destruct (Z.ltb_spec x 0).
    + replace x with (x + 2 ^ castkeepingbits.width S
                      + (-1) * 2 ^ castkeepingbits.width S) at 1 by lia.
      rewrite Z.mod_add by lia. apply Z.mod_small. lia.
    + apply Z.mod_small. lia.
  - rewrite castkeepingbits_more.cast_same_size by (symmetry; assumption). f_equal.
    unfold castkeepingbits.in_range in Hx. rewrite HU, <- Hww in Hx.
    apply fits_unsigned_iff in Hx.
    unfold castkeepingbits.value_representation,
      castkeepingbits.object_representation. rewrite HS, <- Hww.
    rewrite wrap_signed_unsigned by assumption. unfold wrap_signed.
    destruct (Z.ltb_spec x (2 ^ (castkeepingbits.width S - 1))).
    + rewrite Z.mod_small; lia.
    + replace (x + 2 ^ (castkeepingbits.width S - 1))
        with (x - 2 ^ (castkeepingbits.width S - 1)
              + 1 * 2 ^ castkeepingbits.width S) by lia.
      rewrite Z.mod_add by lia. rewrite Z.mod_small; lia.
Qed.

Lemma CastKeepingBits_sign_change_example :
  (castkeepingbits.in_range castkeepingbits.int32_t (-2) = true ->
     castkeepingbits.CastKeepingBits castkeepingbits.uint32_t castkeepingbits.int32_t (-2)
       = Some (if -2 <? 0 then -2 + 2 ^ castkeepingbits.width castkeepingbits.int32_t
               else -2))
  /\ (castkeepingbits.in_range castkeepingbits.uint32_t (-2) = true ->
     castkeepingbits.CastKeepingBits castkeepingbits.int32_t castkeepingbits.uint32_t (-2)
       = Some (if -2 <? 2 ^ (castkeepingbits.width castkeepingbits.int32_t - 1) then -2
               else -2 - 2 ^ castkeepingbits.width castkeepingbits.int32_t)).
Proof.
  apply (CastKeepingBits_sign_change castkeepingbits.int32_t castkeepingbits.uint32_t (-2));
    reflexivity.
Defined.

(** X22.  The cast loses nothing: between two types of one size, two values
    of the source type that cast to the same result are the same value. *)
Theorem CastKeepingBits_injective :
  forall (ToType FromType : castkeepingbits.IntegerType) (x y : Z),
    0 < castkeepingbits.sizeof FromType ->
    castkeepingbits.sizeof FromType = castkeepingbits.sizeof ToType ->
    castkeepingbits.in_range FromType x = true ->
    castkeepingbits.in_range FromType y = true ->
    castkeepingbits.CastKeepingBits ToType FromType x
      = castkeepingbits.CastKeepingBits ToType FromType y ->
    x = y.
Proof.
  intros ToType FromType x y Hp Hs Hx Hy H.
  rewrite !castkeepingbits_more.cast_same_size in H by assumption.
  injection H as H.
  assert (HpT : 0 < castkeepingbits.sizeof ToType) by (rewrite <- Hs; exact Hp).
  apply (f_equal (castkeepingbits.object_representation ToType)) in H.
  rewrite !castkeepingbits_more.cast_bits in H by assumption.
  apply (f_equal (castkeepingbits.value_representation FromType)) in H.
  now rewrite !castkeepingbits_facts.value_of_object_representation in H by assumption.
Qed.

Lemma CastKeepingBits_injective_example : -1 = -1.
Proof.
  apply (CastKeepingBits_injective castkeepingbits.uint32_t castkeepingbits.int32_t (-1) (-1));
    reflexivity.
Defined.

(** X23.  Casts compose: among three types of one size, casting to the
    second and then to the third gives what the cast straight to the third
    gives; and a cast to the source type itself gives the value back. *)
Theorem CastKeepingBits_composes :
  forall (A B C : castkeepingbits.IntegerType) (x : Z),
    0 < castkeepingbits.sizeof A ->
    castkeepingbits.sizeof A = castkeepingbits.sizeof B ->
    castkeepingbits.sizeof B = castkeepingbits.sizeof C ->
    castkeepingbits.in_range A x = true ->
    (exists y,
       castkeepingbits.CastKeepingBits B A x = Some y
       /\ castkeepingbits.CastKeepingBits C B y
            = castkeepingbits.CastKeepingBits C A x)
    /\ castkeepingbits.CastKeepingBits A A x = Some x.
Proof.
  intros A B C x Hp Hab Hbc Hx.
  assert (HpB : 0 < castkeepingbits.sizeof B) by (rewrite <- Hab; exact Hp).
  split.
  - eexists. split; [now apply castkeepingbits_more.cast_same_size|].
    rewrite !castkeepingbits_more.cast_same_size by congruence.
    now rewrite castkeepingbits_more.cast_bits.
  - rewrite castkeepingbits_more.cast_same_size by reflexivity.
    now rewrite castkeepingbits_facts.value_of_object_representation.
Qed.

Lemma CastKeepingBits_composes_example :
  (exists y,
     castkeepingbits.CastKeepingBits castkeepingbits.uint64_t castkeepingbits.int64_t (-5)
       = Some y
     /\ castkeepingbits.CastKeepingBits castkeepingbits.int64_t castkeepingbits.uint64_t y
          = castkeepingbits.CastKeepingBits castkeepingbits.int64_t
              castkeepingbits.int64_t (-5))
  /\ castkeepingbits.CastKeepingBits castkeepingbits.int64_t castkeepingbits.int64_t (-5)
       = Some (-5).
Proof.
  apply (CastKeepingBits_composes castkeepingbits.int64_t castkeepingbits.uint64_t
           castkeepingbits.int64_t (-5)); reflexivity.
Defined.

(** * When the Coercing Extractor is stopped *)

Lemma after_strto_stops {A : Type} (p : Platform) (x d : A) (code : option Z)
    (errno : Z) :
  after_strto p (x, code) d errno = AssertionFailed
  <-> NDEBUG p = false
      /\ match code with Some e => e | None => errno end = ERANGE.
Proof.
  unfold after_strto, cassert.
  set (e := match code with Some e => e | None => errno end).
  destruct (NDEBUG p); simpl.
  - split; [destruct (negb (e =? 0)); discriminate | now intros [? _]].
  - destruct (Z.eqb_spec e ERANGE) as [He|He]; simpl.
    + split; [now intros _ | reflexivity].
    + split; [destruct (negb (e =? 0)); discriminate | now intros [_ ?]].
Qed.

(** X16.  [ExtractFromNumericOrString] is stopped by an assertion only in a
    build with assertions, and then in exactly two situations: the int32 Tag
    on a member that is a number and not a 32-bit integer, and a text member
    at a Tag with a text branch when [errno] holds [ERANGE] after the parse,
    which is the case when the parser reports a range error and also when it
    reports nothing and [errno] held [ERANGE] at the call. *)
Theorem ExtractFromNumericOrString_stops_iff :
  forall (p : Platform) (T : DataType) (members : list (string * Value))
         (member : string) (default_value : value_of T) (errno : Z),
    ExtractFromNumericOrString p T (JObject members) member default_value errno
      = AssertionFailed
    <-> NDEBUG p = false
        /\ exists v,
             MemberValue (JObject members) member = Some v
             /\ ((IsNumber v = true /\ T = int32_t /\ IsInt v = false)
                 \/ exists s x code,
                      v = JString s
                      /\ text_conversion p T (c_str s) = Some (x, code)
                      /\ match code with Some e => e | None => errno end = ERANGE).
Proof.
  intros p T members member d errno.
  destruct (MemberValue (JObject members) member) as [v|] eqn:E.
  - rewrite (ExtractFromNumericOrString_present p T _ _ d errno v E).
    destruct (IsNumber v) eqn:En.
    + split.
      * intros H.
        destruct (Extract p T (JObject members) member d) eqn:Ex; [discriminate|].
        apply Extract_stops in Ex as (Hn & -> & w & Ew & Hw1 & Hw2).
        rewrite E in Ew. injection Ew as <-.
        split; [assumption|]. exists v. split; [reflexivity|]. left. now repeat split.
      * intros (Hn & w & [= <-] & [(_ & -> & Hi) | (s & x & code & -> & _)]);
          [|discriminate].
        assert (Hx : Extract p int32_t (JObject members) member d = AssertionFailed).
        { apply Extract_stops. repeat split; [assumption|]. eauto. }
        now rewrite Hx.
    + destruct (IsString v) eqn:Es.
      * apply IsString_iff in Es as (s & ->). cbn [GetString].
        destruct (text_conversion p T (c_str s)) as [[x code]|] eqn:Et.
        -- rewrite after_strto_stops. split.
           ++ intros [Hn He]. split; [assumption|]. eexists. split; [reflexivity|].
              right. exists s, x, code. now repeat split.
           ++ intros (Hn & w & [= <-] & [(Hw & _) | (s' & x' & code' & [= <-] & Ht' & He)]);
                [discriminate|].
              split; [assumption|]. rewrite Et in Ht'. now injection Ht' as <- <-.
        -- split; [discriminate|].
           intros (_ & w & [= <-] & [(Hw & _) | (s' & x' & code' & [= <-] & Ht' & _)]);
             [discriminate | congruence].
      * split; [discriminate|].
        intros (_ & w & [= <-] & [(Hw & _) | (s' & x' & code' & -> & _)]);
          [congruence | discriminate].
  - rewrite (ExtractFromNumericOrString_absent p T _ _ d errno E).
    split; [discriminate|]. now intros (_ & v & [=] & _).
Qed.

Lemma ExtractFromNumericOrString_stops_example :
  ExtractFromNumericOrString (windows_x64 false) int32_t text_doc "big" 0 0
    = AssertionFailed
  <-> NDEBUG (windows_x64 false) = false
      /\ exists v,
           MemberValue text_doc "big" = Some v
           /\ ((IsNumber v = true /\ int32_t = int32_t /\ IsInt v = false)
               \/ exists s x code,
                    v = JString s
                    /\ text_conversion (windows_x64 false) int32_t (c_str s)
                         = Some (x, code)
                    /\ match code with Some e => e | None => 0 end = ERANGE).
Proof.
  exact (ExtractFromNumericOrString_stops_iff (windows_x64 false) int32_t _ "big" 0 0).
Defined.

(** * CastKeepingBits at the floating types *)

Module scalar_types_facts.
Import scalar_types.






(** At two integer types it is the cast of the integer types. *)
Lemma CastKeepingBits_integer (ToType FromType : castkeepingbits.IntegerType) (x : Z) :
  CastKeepingBits (integer ToType) (integer FromType) x
  = castkeepingbits.CastKeepingBits ToType FromType x.
Proof. reflexivity. Qed.



End scalar_types_facts.



(** The encodings read as floats: 1, the quiet NaN, the two zeros, which are
    equal with different bits, and the least subnormal [float]. *)
Example float_encodings :
  scalar_types.float_of scalar_types.cpp_float scalar_types.float_one
    = Some (S754_finite false 8388608 (-23))
  /\ scalar_types.float_of scalar_types.cpp_float scalar_types.float_quiet_NaN
     = Some S754_nan
  /\ scalar_types.float_of scalar_types.cpp_float 2139095040
     = Some (S754_infinity false)
  /\ scalar_types.float_of scalar_types.cpp_float 2147483648 = Some (S754_zero true)
  /\ scalar_types.equal scalar_types.cpp_float 0 2147483648 = true
  /\ scalar_types.float_of scalar_types.cpp_float 1 = Some (S754_finite false 1 (-149))
  /\ scalar_types.float_of scalar_types.cpp_double 4607182418800017408
     = Some (S754_finite false 4503599627370496 (-52)).
Proof. repeat apply conj; reflexivity. Qed.

(** * The floating parsers *)

(** [strtod] on the forms it reads: a decimal and a hexadecimal literal, an
    infinity and a NaN store nothing; an overflow, an underflow to zero and a
    subnormal result that is not exact store [ERANGE], an exact subnormal
    does not; a text without a number gives zero and stores nothing. *)
Example strtod_forms :
  strtod (linux_x86_64 true) " -12.5e1xyz" = (S754_finite true 8796093022208000 (-46), None)
  /\ strtod (linux_x86_64 true) "0x10" = (S754_finite false 4503599627370496 (-48), None)
  /\ strtod (linux_x86_64 true) "0x1p-1" = strtod (linux_x86_64 true) "0.5"
  /\ strtod (linux_x86_64 true) "-Infinity" = (S754_infinity true, None)
  /\ strtod (linux_x86_64 true) "nan(1)" = (S754_nan, None)
  /\ strtod (linux_x86_64 true) "1e400" = (S754_infinity false, Some ERANGE)
  /\ strtod (linux_x86_64 true) "1e-400" = (S754_zero false, Some ERANGE)
  /\ strtod (linux_x86_64 true) "1e-310"
     = (S754_finite false 20240225330731 (-1074), Some ERANGE)
  /\ strtod (linux_x86_64 true) "0x1p-1074" = (S754_finite false 1 (-1074), None)
  /\ strtod (linux_x86_64 true) "abc" = (S754_zero false, None)
  /\ strtof (linux_x86_64 true) "0.1" = (S754_finite false 13421773 (-27), None)
  /\ strtof (linux_x86_64 true) "1e-40" = (S754_finite false 71362 (-149), Some ERANGE).
Proof. repeat apply conj; vm_compute; reflexivity. Qed.

(** The floating text branch on those: an overflow and an inexact subnormal
    give the default and leave [ERANGE], the infinity of the text ["inf"] is
    returned as a value. *)
Example ExtractFromNumericOrString_floating_text :
  ExtractFromNumericOrString (linux_x86_64 true) floating_point
    (JObject [("k", JString "1e400")]) "k" (S754_zero false) 0
    = Returns (S754_zero false, ERANGE)
  /\ ExtractFromNumericOrString (linux_x86_64 true) floating_point
       (JObject [("k", JString "1e-310")]) "k" (S754_zero false) 0
     = Returns (S754_zero false, ERANGE)
  /\ ExtractFromNumericOrString (linux_x86_64 true) floating_point
       (JObject [("k", JString "inf")]) "k" (S754_zero false) 0
     = Returns (S754_infinity false, 0)
  /\ ExtractFromNumericOrString (linux_x86_64 true) cpp_float
       (JObject [("k", JString "0x1p-1")]) "k" (S754_zero false) 0
     = Returns (S754_finite false 8388608 (-24), 0).
Proof. repeat apply conj; vm_compute; reflexivity. Qed.
